(** * Override model of react-native-platform-override

    A shallow embedding of
    [packages/react-native-platform-override/src/Override.ts]: the five
    override classes, their serialized records and [deserializeOverride],
    together with the parts of Node's [path] module and of the package's
    own helpers that the classes call. *)

From Stdlib Require Import ZArith Lia Ascii String.
From stdpp Require Import base option list strings gmap.

Open Scope string_scope.
Open Scope list_scope.

(** ** Node's [path] module, POSIX flavour

    [Override.ts] calls [path.relative] and [path.sep]; [PathUtils] calls
    [path.normalize]. Node walks the characters of the path; the model works
    on the segments between separators, which is what that walk computes. *)
Module NodePath.

(** [path.sep] *)
Definition sep : ascii := "/"%char.

Definition is_sep (c : ascii) : bool := bool_decide (c = sep).

(** [s.split(path.sep)]: the pieces between separators, never empty. *)
Fixpoint split (s : string) : list string :=
  match s with
  | EmptyString => [ "" ]
  | String c s' =>
      if is_sep c then "" :: split s'
      else match split s' with
           | seg :: rest => String c seg :: rest
           | [] => [ String c "" ]
           end
  end.

(** [segs.join(path.sep)] *)
Fixpoint join (segs : list string) : string :=
  match segs with
  | [] => ""
  | [ x ] => x
  | x :: rest => x +:+ String sep (join rest)
  end.

(** One segment of [normalizeString]. The stack holds the segments kept so
    far, last one first. Empty segments and [.] are dropped; [..] removes
    the last segment unless there is none or it is itself [..], in which
    case it is kept only when [allowAboveRoot]. *)
Definition normalizeStep (allowAboveRoot : bool)
    (stack : list string) (seg : string) : list string :=
  if bool_decide (seg = "") || bool_decide (seg = ".") then stack
  else if bool_decide (seg = "..") then
    match stack with
    | top :: below =>
        if bool_decide (top = "..")
        then (if allowAboveRoot then ".." :: stack else stack)
        else below
    | [] => if allowAboveRoot then [ ".." ] else []
    end
  else seg :: stack.

Definition normalizeSegments (allowAboveRoot : bool)
    (segs : list string) : list string :=
  rev (fold_left (normalizeStep allowAboveRoot) segs []).

(** [normalizeString(path, allowAboveRoot, '/', isPosixPathSeparator)] *)
Definition normalizeString (path : string) (allowAboveRoot : bool) : string :=
  join (normalizeSegments allowAboveRoot (split path)).

(** [path.charCodeAt(0) === CHAR_FORWARD_SLASH] *)
Definition isAbsolute (path : string) : bool :=
  match path with
  | String c _ => is_sep c
  | EmptyString => false
  end.

(** [path.charCodeAt(path.length - 1) === CHAR_FORWARD_SLASH] *)
Fixpoint trailingSeparator (path : string) : bool :=
  match path with
  | EmptyString => false
  | String c EmptyString => is_sep c
  | String _ rest => trailingSeparator rest
  end.

(** [path.posix.normalize] *)
Definition normalize (path : string) : string :=
  if bool_decide (path = "") then "."
  else
    let body := normalizeString path (negb (isAbsolute path)) in
    if bool_decide (body = "") then
      (if isAbsolute path then "/"
       else if trailingSeparator path then "./" else ".")
    else
      (if isAbsolute path then "/" else "") +:+ body +:+
      (if trailingSeparator path then "/" else "").

(** [path.posix.resolve(p)] with one argument, as [relative] calls it:
    the segments of the resolved path. [cwd] is [process.cwd()]. *)
Definition resolveSegments (cwd p : string) : list string :=
  let tail := if bool_decide (p = "") then "" else p +:+ "/" in
  if isAbsolute p then normalizeSegments false (split tail)
  else if bool_decide (cwd = "") then normalizeSegments true (split tail)
  else normalizeSegments (negb (isAbsolute cwd))
         (split (cwd +:+ "/" +:+ tail)).

(** What is left of two segment lists after their common prefix. *)
Fixpoint stripCommon (from to : list string) : list string * list string :=
  match from, to with
  | f :: from', t :: to' =>
      if bool_decide (f = t) then stripCommon from' to' else (from, to)
  | _, _ => (from, to)
  end.

(** [path.posix.relative(from, to)]: one [..] for every segment of [from]
    below the common part, then the rest of [to]. *)
Definition relative (cwd from to : string) : string :=
  if bool_decide (from = to) then ""
  else
    let '(up, down) :=
      stripCommon (resolveSegments cwd from) (resolveSegments cwd to) in
    join (map (fun _ => "..") up ++ down).

(** The segments of the resolved working directory. *)
Definition cwdSegments (cwd : string) : list string :=
  normalizeSegments (negb (isAbsolute cwd)) (split cwd).

(** *** Predicates on paths and segments *)

(** Every character of the string satisfies [P]. *)
Fixpoint allChars (P : ascii -> bool) (s : string) : bool :=
  match s with
  | EmptyString => true
  | String c rest => P c && allChars P rest
  end.

(** The string holds no separator. *)
Definition sepFree (s : string) : Prop :=
  allChars (fun c => negb (is_sep c)) s = true.

(** A segment that [normalizeString] keeps as it is. *)
Definition regular (seg : string) : Prop :=
  seg <> "" /\ seg <> "." /\ seg <> "..".

(** The shape of the stack of [normalizeString]: kept segments above, and
    below them leading [..] segments, which only a relative path has. *)
Definition stackOk (allow : bool) (stack : list string) : Prop :=
  exists regs dots,
    stack = regs ++ dots /\ Forall regular regs /\ Forall (eq "..") dots
    /\ (allow = false -> dots = []).

End NodePath.

(** ** PathUtils *)
Module PathUtils.

(** Modelled from the spec: [unixPath] of [PathUtils.ts], the stable
    serialization form of a path: every backslash becomes a forward
    slash. *)
Fixpoint unixPath (filepath : string) : string :=
  match filepath with
  | EmptyString => EmptyString
  | String c rest =>
      String (if bool_decide (c = "\"%char) then "/"%char else c)
             (unixPath rest)
  end.

(** Modelled from the spec: [normalizePath] of [PathUtils.ts], the stable
    comparison key of a path: separators are unified, then the path is
    normalized with the platform's [path.normalize]. *)
Definition normalizePath (filepath : string) : string :=
  NodePath.normalize (unixPath filepath).

(** The character is not a backslash. *)
Definition notBackslash (c : ascii) : bool :=
  negb (bool_decide (c = "\"%char)).

End PathUtils.

(** ** JavaScript values and objects

    Serialized overrides and constructor arguments are plain JavaScript
    objects; an issue is a number, a string, [null] or [undefined]. *)
Module Js.

Inductive value : Type :=
| undefined
| null
| number (n : Z)
| str (s : string).

#[global] Instance value_eq_dec : EqDecision value.
Proof. solve_decision. Defined.

(** [o.k]: a missing key reads as [undefined]. *)
Definition get (o : gmap string value) (k : string) : value :=
  default undefined (o !! k).

(** ['k' in o] *)
Definition has (k : string) (o : gmap string value) : bool :=
  bool_decide (is_Some (o !! k)).

Definition truthy (v : value) : bool :=
  match v with
  | undefined | null => false
  | number n => negb (n =? 0)%Z
  | str s => negb (bool_decide (s = ""))
  end.

(** [a || b] *)
Definition or (a b : value) : value := if truthy a then a else b.

(** Reading a field whose declared type is [string]. A record without a
    string there is outside the declared type of the argument. *)
Definition asString (v : value) : option string :=
  match v with
  | str s => Some s
  | _ => None
  end.

Definition isNumber (v : value) : bool :=
  match v with
  | number _ => true
  | _ => false
  end.

Definition isString (v : value) : bool :=
  match v with
  | str _ => true
  | _ => false
  end.

End Js.

Abbreviation JsObject := (gmap string Js.value).

(** ** Strategy descriptors *)

(** Modelled from the spec: [UpgradeStrategies] of [UpgradeStrategy.ts], one
    descriptor per algorithm with the paths it was built from. *)
Inductive UpgradeStrategy : Type :=
| assumeUpToDate (overrideName : string)
| copyFile (overrideName baseFile : string)
| threeWayMerge (overrideName baseFile baseVersion : string)
| copyDirectory (overrideDirectory baseDirectory : string).

(** Modelled from the spec: [ValidationStrategies] of
    [ValidationStrategy.ts], one descriptor per check with the paths (and
    hash) it was built from. *)
Inductive ValidationStrategy : Type :=
| overrideFileExists (overrideName : string)
| baseFileExists (overrideName baseFile : string)
| overrideDirectoryExists (overrideName : string)
| baseDirectoryExists (overrideName baseDirectory : string)
| baseUpToDate (overrideName base expectedBaseHash : string)
| overrideCopyOfBase (overrideName base : string)
| overrideDifferentFromBase (overrideName base : string).

#[global] Instance UpgradeStrategy_eq_dec : EqDecision UpgradeStrategy.
Proof. solve_decision. Defined.

#[global] Instance ValidationStrategy_eq_dec : EqDecision ValidationStrategy.
Proof. solve_decision. Defined.

(** ** Promises over a store of override objects

    Override instances live in a store and are handed around by reference:
    a reference is the position of the instance in the store. *)
Definition Ref : Type := nat.

Inductive Error : Type :=
| TypeError
| UpstreamError (path : string)
| OtherError (message : string).

Inductive Outcome (A : Type) : Type :=
| Resolved (a : A)
| Rejected (e : Error).
Arguments Resolved {A} a.
Arguments Rejected {A} e.

(** An asynchronous computation: started on a store of type [S], it settles
    with an outcome and the store it leaves. *)
Definition Promise (S A : Type) : Type := S -> Outcome A * S.

(** [OverrideFactory]: the five creation methods that [Override.ts] calls.
    The interface itself is declared in [OverrideFactory.ts]; the argument
    lists are those of the call sites. *)
Record OverrideFactory (S : Type) : Type := {
  createPlatformOverride : string -> Promise S Ref;
  createCopyOverride : string -> string -> Js.value -> Promise S Ref;
  createDerivedOverride : string -> string -> Js.value -> Promise S Ref;
  createPatchOverride : string -> string -> Js.value -> Promise S Ref;
  createDirectoryCopyOverride : string -> string -> Js.value -> Promise S Ref
}.
Arguments createPlatformOverride {S} _ _ _.
Arguments createCopyOverride {S} _ _ _ _ _.
Arguments createDerivedOverride {S} _ _ _ _ _.
Arguments createPatchOverride {S} _ _ _ _ _.
Arguments createDirectoryCopyOverride {S} _ _ _ _ _.

(** ** The override classes *)

Import PathUtils.

(** Platform overrides represent logic not derived from upstream sources. *)
Module PlatformOverride.

Record t : Type := { overrideFile : string }.

Definition new (args : JsObject) : option t :=
  file ← Js.asString (Js.get args "file");
  Some {| overrideFile := normalizePath file |}.

Definition fromSerialized (serialized : JsObject) : option t :=
  new serialized.

Definition serialize (this : t) : JsObject :=
  <["file" := Js.str (unixPath (overrideFile this))]>
    (<["type" := Js.str "platform"]> ∅).

Definition name (this : t) : string := overrideFile this.

Definition includesFile (this : t) (filename : string) : bool :=
  bool_decide (normalizePath filename = overrideFile this).

Definition createUpdated {S} (this : t) (factory : OverrideFactory S)
  : Promise S Ref :=
  createPlatformOverride factory (overrideFile this).

Definition upgradeStrategy (this : t) : UpgradeStrategy :=
  assumeUpToDate (overrideFile this).

Definition validationStrategies (this : t) : list ValidationStrategy :=
  [ overrideFileExists (overrideFile this) ].

End PlatformOverride.

(** Base class for overrides which derive from an upstream file. *)
Module BaseFileOverride.

Record t : Type := {
  overrideFile : string;
  baseFile : string;
  baseVersion : string;
  baseHash : string;
  issueNumber : Js.value
}.

Definition new (args : JsObject) : option t :=
  file ← Js.asString (Js.get args "file");
  baseFile ← Js.asString (Js.get args "baseFile");
  baseVersion ← Js.asString (Js.get args "baseVersion");
  baseHash ← Js.asString (Js.get args "baseHash");
  Some {| overrideFile := normalizePath file;
          baseFile := normalizePath baseFile;
          baseVersion := baseVersion;
          baseHash := baseHash;
          issueNumber := Js.or (Js.get args "issue") Js.null |}.

(** The declared type of the constructor argument:
    [issue?: number | 'LEGACY_FIXME']. *)
Definition argsType (args : JsObject) : bool :=
  Js.isString (Js.get args "file")
  && Js.isString (Js.get args "baseFile")
  && Js.isString (Js.get args "baseVersion")
  && Js.isString (Js.get args "baseHash")
  && match Js.get args "issue" with
     | Js.undefined => true
     | Js.number _ => true
     | Js.str s => bool_decide (s = "LEGACY_FIXME")
     | Js.null => false
     end.

Definition name (this : t) : string := overrideFile this.

Definition includesFile (this : t) (filename : string) : bool :=
  bool_decide (normalizePath filename = overrideFile this).

Definition validationStrategies (this : t) : list ValidationStrategy :=
  [ baseFileExists (overrideFile this) (baseFile this);
    overrideFileExists (overrideFile this);
    baseUpToDate (overrideFile this) (baseFile this) (baseHash this) ].

Definition serialzeBase (this : t) : JsObject :=
  <["baseHash" := Js.str (baseHash this)]>
    (<["baseVersion" := Js.str (baseVersion this)]>
       (<["baseFile" := Js.str (unixPath (baseFile this))]>
          (<["file" := Js.str (unixPath (overrideFile this))]> ∅))).

End BaseFileOverride.

(** Copy overrides enforce that an override file is an exact copy of a base
    file. *)
Module CopyOverride.
Import BaseFileOverride.

Definition new (args : JsObject) : option t := BaseFileOverride.new args.

Definition fromSerialized (serialized : JsObject) : option t :=
  new serialized.

Definition serialize (this : t) : JsObject :=
  <["issue" := issueNumber this]>
    (serialzeBase this ∪ <["type" := Js.str "copy"]> ∅).

Definition createUpdated {S} (this : t) (factory : OverrideFactory S)
  : Promise S Ref :=
  createCopyOverride factory (overrideFile this) (baseFile this)
    (issueNumber this).

Definition upgradeStrategy (this : t) : UpgradeStrategy :=
  copyFile (overrideFile this) (baseFile this).

Definition validationStrategies (this : t) : list ValidationStrategy :=
  BaseFileOverride.validationStrategies this
  ++ [ overrideCopyOfBase (overrideFile this) (baseFile this) ].

End CopyOverride.

(** Derived overrides represent files which are based off of an existing
    file in the React Native source tree. *)
Module DerivedOverride.
Import BaseFileOverride.

Definition new (args : JsObject) : option t := BaseFileOverride.new args.

(** The declared type of the constructor argument:
    [issue?: number | 'LEGACY_FIXME']. *)
Definition argsType (args : JsObject) : bool :=
  BaseFileOverride.argsType args.

Definition fromSerialized (serialized : JsObject) : option t :=
  new serialized.

Definition serialize (this : t) : JsObject :=
  <["issue" := Js.or (issueNumber this) Js.undefined]>
    (serialzeBase this ∪ <["type" := Js.str "derived"]> ∅).

Definition createUpdated {S} (this : t) (factory : OverrideFactory S)
  : Promise S Ref :=
  createDerivedOverride factory (overrideFile this) (baseFile this)
    (Js.or (issueNumber this) Js.undefined).

Definition upgradeStrategy (this : t) : UpgradeStrategy :=
  threeWayMerge (overrideFile this) (baseFile this) (baseVersion this).

Definition validationStrategies (this : t) : list ValidationStrategy :=
  BaseFileOverride.validationStrategies this
  ++ [ overrideDifferentFromBase (overrideFile this) (baseFile this) ].

End DerivedOverride.

(** Patch overrides represent files which make minor modifications to
    existing upstream sources. *)
Module PatchOverride.
Import BaseFileOverride.

Definition new (args : JsObject) : option t := BaseFileOverride.new args.

(** The declared type of the constructor argument:
    [issue?: number | 'LEGACY_FIXME']. *)
Definition argsType (args : JsObject) : bool :=
  BaseFileOverride.argsType args.

Definition fromSerialized (serialized : JsObject) : option t :=
  new serialized.

Definition serialize (this : t) : JsObject :=
  <["issue" := issueNumber this]>
    (serialzeBase this ∪ <["type" := Js.str "patch"]> ∅).

Definition createUpdated {S} (this : t) (factory : OverrideFactory S)
  : Promise S Ref :=
  createPatchOverride factory (overrideFile this) (baseFile this)
    (issueNumber this).

Definition upgradeStrategy (this : t) : UpgradeStrategy :=
  threeWayMerge (overrideFile this) (baseFile this) (baseVersion this).

Definition validationStrategies (this : t) : list ValidationStrategy :=
  BaseFileOverride.validationStrategies this
  ++ [ overrideDifferentFromBase (overrideFile this) (baseFile this) ].

End PatchOverride.

(** DirectoryCopy overrides copy files from an upstream directory. *)
Module DirectoryCopyOverride.

Record t : Type := {
  directory : string;
  baseDirectory : string;
  baseVersion : string;
  baseHash : string;
  issue : Js.value
}.

Definition new (args : JsObject) : option t :=
  directory ← Js.asString (Js.get args "directory");
  baseDirectory ← Js.asString (Js.get args "baseDirectory");
  baseVersion ← Js.asString (Js.get args "baseVersion");
  baseHash ← Js.asString (Js.get args "baseHash");
  Some {| directory := normalizePath directory;
          baseDirectory := normalizePath baseDirectory;
          baseVersion := baseVersion;
          baseHash := baseHash;
          issue := Js.get args "issue" |}.

Definition fromSerialized (serialized : JsObject) : option t :=
  new serialized.

Definition serialize (this : t) : JsObject :=
  <["issue" := issue this]>
    (<["baseHash" := Js.str (baseHash this)]>
       (<["baseVersion" := Js.str (baseVersion this)]>
          (<["baseDirectory" := Js.str (unixPath (baseDirectory this))]>
             (<["directory" := Js.str (unixPath (directory this))]>
                (<["type" := Js.str "copy"]> ∅))))).

Definition name (this : t) : string := directory this.

(** [cwd] is [process.cwd()], which [path.relative] reads. *)
Definition includesFile (cwd : string) (this : t) (filename : string)
  : bool :=
  let relativeToDir :=
    NodePath.relative cwd (directory this) (normalizePath filename) in
  match NodePath.split relativeToDir !! 0%nat with
  | Some first => negb (bool_decide (first = ".."))
  | None => true
  end.

Definition createUpdated {S} (this : t) (factory : OverrideFactory S)
  : Promise S Ref :=
  createDirectoryCopyOverride factory (directory this)
    (baseDirectory this) (issue this).

Definition upgradeStrategy (this : t) : UpgradeStrategy :=
  copyDirectory (directory this) (baseDirectory this).

Definition validationStrategies (this : t) : list ValidationStrategy :=
  [ overrideDirectoryExists (directory this);
    baseDirectoryExists (directory this) (baseDirectory this);
    baseUpToDate (directory this) (baseDirectory this) (baseHash this);
    overrideCopyOfBase (directory this) (baseDirectory this) ].

End DirectoryCopyOverride.

(** ** The [Override] interface

    A value of the interface is an instance of one of the five classes; a
    method call dispatches on the class. *)
Inductive Override : Type :=
| Platform (o : PlatformOverride.t)
| Copy (o : BaseFileOverride.t)
| Derived (o : BaseFileOverride.t)
| Patch (o : BaseFileOverride.t)
| DirectoryCopy (o : DirectoryCopyOverride.t).

Inductive Variant : Type :=
| VPlatform | VCopy | VDerived | VPatch | VDirectoryCopy.

#[global] Instance Variant_eq_dec : EqDecision Variant.
Proof. solve_decision. Defined.

Definition variant (o : Override) : Variant :=
  match o with
  | Platform _ => VPlatform
  | Copy _ => VCopy
  | Derived _ => VDerived
  | Patch _ => VPatch
  | DirectoryCopy _ => VDirectoryCopy
  end.

(** [new C(args)] for the class [C] named by the variant. There is no
    instance for a record outside the declared fields of the argument. *)
Definition construct (v : Variant) (args : JsObject) : option Override :=
  match v with
  | VPlatform => Platform <$> PlatformOverride.new args
  | VCopy => Copy <$> CopyOverride.new args
  | VDerived => Derived <$> DerivedOverride.new args
  | VPatch => Patch <$> PatchOverride.new args
  | VDirectoryCopy => DirectoryCopy <$> DirectoryCopyOverride.new args
  end.

(** The [type] tag that [serialize] writes for a class. *)
Definition typeTag (v : Variant) : string :=
  match v with
  | VPlatform => "platform"
  | VCopy | VDirectoryCopy => "copy"
  | VDerived => "derived"
  | VPatch => "patch"
  end.

Definition name (o : Override) : string :=
  match o with
  | Platform p => PlatformOverride.name p
  | Copy b | Derived b | Patch b => BaseFileOverride.name b
  | DirectoryCopy d => DirectoryCopyOverride.name d
  end.

Definition includesFile (cwd : string) (o : Override) (filename : string)
  : bool :=
  match o with
  | Platform p => PlatformOverride.includesFile p filename
  | Copy b | Derived b | Patch b => BaseFileOverride.includesFile b filename
  | DirectoryCopy d => DirectoryCopyOverride.includesFile cwd d filename
  end.

Definition serialize (o : Override) : JsObject :=
  match o with
  | Platform p => PlatformOverride.serialize p
  | Copy b => CopyOverride.serialize b
  | Derived b => DerivedOverride.serialize b
  | Patch b => PatchOverride.serialize b
  | DirectoryCopy d => DirectoryCopyOverride.serialize d
  end.

Definition createUpdated {S} (o : Override) (factory : OverrideFactory S)
  : Promise S Ref :=
  match o with
  | Platform p => PlatformOverride.createUpdated p factory
  | Copy b => CopyOverride.createUpdated b factory
  | Derived b => DerivedOverride.createUpdated b factory
  | Patch b => PatchOverride.createUpdated b factory
  | DirectoryCopy d => DirectoryCopyOverride.createUpdated d factory
  end.

Definition upgradeStrategy (o : Override) : UpgradeStrategy :=
  match o with
  | Platform p => PlatformOverride.upgradeStrategy p
  | Copy b => CopyOverride.upgradeStrategy b
  | Derived b => DerivedOverride.upgradeStrategy b
  | Patch b => PatchOverride.upgradeStrategy b
  | DirectoryCopy d => DirectoryCopyOverride.upgradeStrategy d
  end.

Definition validationStrategies (o : Override) : list ValidationStrategy :=
  match o with
  | Platform p => PlatformOverride.validationStrategies p
  | Copy b => CopyOverride.validationStrategies b
  | Derived b => DerivedOverride.validationStrategies b
  | Patch b => PatchOverride.validationStrategies b
  | DirectoryCopy d => DirectoryCopyOverride.validationStrategies d
  end.

(** [deserializeOverride]. A record whose [type] is none of the four tags is
    outside [Serialized.Override]; the [switch] then returns no override. *)
Definition deserializeOverride (ovr : JsObject) : option Override :=
  match Js.get ovr "type" with
  | Js.str type =>
      if bool_decide (type = "platform") then
        Platform <$> PlatformOverride.fromSerialized ovr
      else if bool_decide (type = "copy") then
        if Js.has "directory" ovr
        then DirectoryCopy <$> DirectoryCopyOverride.fromSerialized ovr
        else Copy <$> CopyOverride.fromSerialized ovr
      else if bool_decide (type = "derived") then
        Derived <$> DerivedOverride.fromSerialized ovr
      else if bool_decide (type = "patch") then
        Patch <$> PatchOverride.fromSerialized ovr
      else None
  | _ => None
  end.

(** The path is its own comparison key. *)
Definition normalized (path : string) : Prop := normalizePath path = path.

(** What every constructor establishes: stored paths are normalized, and a
    stored issue number is [null] or truthy. *)
Definition invariant (o : Override) : Prop :=
  match o with
  | Platform p => normalized (PlatformOverride.overrideFile p)
  | Copy b | Derived b | Patch b =>
      normalized (BaseFileOverride.overrideFile b)
      /\ normalized (BaseFileOverride.baseFile b)
      /\ Js.or (BaseFileOverride.issueNumber b) Js.null
         = BaseFileOverride.issueNumber b
  | DirectoryCopy d =>
      normalized (DirectoryCopyOverride.directory d)
      /\ normalized (DirectoryCopyOverride.baseDirectory d)
  end.

(** The stored fields of a copy, derived or patch override. *)
Definition fileLinked (o : Override) : option BaseFileOverride.t :=
  match o with
  | Copy b | Derived b | Patch b => Some b
  | Platform _ | DirectoryCopy _ => None
  end.

(** ** Overrides in the store *)


(** What a method of a factory can do. It is handed strings and an issue. It
    can read and change an environment of its own (the trees it works on, a
    cache), call the constructors of the classes, look at an instance it
    holds a reference to, and settle. The fields of the classes are private
    and no method of [Override.ts] assigns one after construction, so there
    is no step that changes an instance. *)
Inductive Script (E A : Type) : Type :=
| Settle (outcome : Outcome A)
| Construct (v : Variant) (args : JsObject) (next : Outcome Ref -> Script E A)
| Inspect (o : Ref) (next : option Override -> Script E A)
| ReadEnv (next : E -> Script E A)
| WriteEnv (env : E) (next : Script E A).
Arguments Settle {E A} outcome.
Arguments Construct {E A} v args next.
Arguments Inspect {E A} o next.
Arguments ReadEnv {E A} next.
Arguments WriteEnv {E A} env next.

(** Running a script on an environment and a store. [new C(args)] puts the
    instance at the next free reference. *)
Fixpoint runScript {E A} (script : Script E A) (state : E * list Override)
  : Outcome A * (E * list Override) :=
  match script with
  | Settle outcome => (outcome, state)
  | Construct v args next =>
      match construct v args with
      | Some o =>
          runScript (next (Resolved (length (snd state))))
            (fst state, snd state ++ [ o ])
      | None => runScript (next (Rejected TypeError)) state
      end
  | Inspect o next => runScript (next (snd state !! o)) state
  | ReadEnv next => runScript (next (fst state)) state
  | WriteEnv env next => runScript next (env, snd state)
  end.

(** The five calls that a factory answers. *)
Inductive FactoryRequest : Type :=
| CreatePlatform (file : string)
| CreateCopy (file baseFile : string) (issue : Js.value)
| CreateDerived (file baseFile : string) (issue : Js.value)
| CreatePatch (file baseFile : string) (issue : Js.value)
| CreateDirectoryCopy (directory baseDirectory : string) (issue : Js.value).

(** A factory given by the script it runs for each call. *)
Definition runFactory {E} (scripts : FactoryRequest -> Script E Ref)
  : OverrideFactory (E * list Override) := {|
  createPlatformOverride file := runScript (scripts (CreatePlatform file));
  createCopyOverride file base issue :=
    runScript (scripts (CreateCopy file base issue));
  createDerivedOverride file base issue :=
    runScript (scripts (CreateDerived file base issue));
  createPatchOverride file base issue :=
    runScript (scripts (CreatePatch file base issue));
  createDirectoryCopyOverride dir base issue :=
    runScript (scripts (CreateDirectoryCopy dir base issue))
|}.

(** [o.createUpdated(factory)] on the instance that [o] refers to. *)
Definition callCreateUpdated {E} (o : Ref)
    (factory : OverrideFactory (E * list Override))
  : Promise (E * list Override) Ref :=
  fun state =>
    match snd state !! o with
    | Some this => createUpdated this factory state
    | None => (Rejected TypeError, state)
    end.

(** An entry of a tree is a file or a directory. *)
Inductive Kind : Type := IsFile | IsDirectory.

#[global] Instance Kind_eq_dec : EqDecision Kind.
Proof. solve_decision. Defined.




(** ** The collaborators: trees, checks and the factory *)

(** Modelled from the spec: the two trees that validation and the factory
    read, as an in-memory substitute: the downstream tree, the upstream tree
    as currently checked out, and the upstream version label. A path maps to
    the kind of entry found there and its content. *)
Record Trees : Type := {
  downstream : gmap string (Kind * string);
  upstream : gmap string (Kind * string);
  upstreamVersion : string
}.

(** The tree has an entry of kind [k] at the path. *)
Definition existsAs (k : Kind) (tree : gmap string (Kind * string))
    (path : string) : bool :=
  match tree !! path with
  | Some (k', _) => bool_decide (k' = k)
  | None => false
  end.

(** The content of the entry at the path. *)
Definition contentOf (tree : gmap string (Kind * string)) (path : string)
  : option string :=
  snd <$> tree !! path.

(** The current content of the upstream entry of kind [k] at [base], when
    there is one. *)
Definition resolveUpstream (w : Trees) (k : Kind) (base : string)
  : option string :=
  match upstream w !! normalizePath base with
  | Some (k', content) => if bool_decide (k' = k) then Some content else None
  | None => None
  end.

(** The trees after the content of an upstream entry has been copied to the
    downstream path. *)
Definition copyDown (w : Trees) (k : Kind) (path content : string) : Trees :=
  {| downstream := <[normalizePath path := (k, content)]> (downstream w);
     upstream := upstream w;
     upstreamVersion := upstreamVersion w |}.

Section Collaborators.

(** The content hash of the hash provider. *)
Variable hashContent : string -> string.

(** Modelled from the spec: the outcome of one check of
    [ValidationStrategy.ts] on the trees: existence of the downstream or
    upstream entry, equality of the current upstream hash with the stored
    one, and equality or difference of downstream and upstream content. *)
Definition passes (w : Trees) (check : ValidationStrategy) : bool :=
  match check with
  | overrideFileExists o => existsAs IsFile (downstream w) o
  | baseFileExists _ b => existsAs IsFile (upstream w) b
  | overrideDirectoryExists o => existsAs IsDirectory (downstream w) o
  | baseDirectoryExists _ b => existsAs IsDirectory (upstream w) b
  | baseUpToDate _ b expected =>
      match contentOf (upstream w) b with
      | Some content => bool_decide (hashContent content = expected)
      | None => false
      end
  | overrideCopyOfBase o b =>
      match contentOf (downstream w) o, contentOf (upstream w) b with
      | Some mine, Some theirs => bool_decide (mine = theirs)
      | _, _ => false
      end
  | overrideDifferentFromBase o b =>
      match contentOf (downstream w) o, contentOf (upstream w) b with
      | Some mine, Some theirs => negb (bool_decide (mine = theirs))
      | _, _ => false
      end
  end.

Definition fileArgs (file baseFile : string) (pin : string * string)
    (issue : Js.value) : JsObject :=
  <["issue" := issue]>
    (<["baseHash" := Js.str (snd pin)]>
       (<["baseVersion" := Js.str (fst pin)]>
          (<["baseFile" := Js.str baseFile]>
             (<["file" := Js.str file]> ∅)))).

Definition directoryArgs (directory baseDirectory : string)
    (pin : string * string) (issue : Js.value) : JsObject :=
  <["issue" := issue]>
    (<["baseHash" := Js.str (snd pin)]>
       (<["baseVersion" := Js.str (fst pin)]>
          (<["baseDirectory" := Js.str baseDirectory]>
             (<["directory" := Js.str directory]> ∅)))).

(** What one method of the factory does for the entry of kind [k] at [base]:
    it resolves the entry in the current upstream tree, is rejected when
    there is none, copies its content down when the class is a copy, and
    constructs the override pinned to the current version and content
    hash. *)
Definition pinnedScript (v : Variant) (k : Kind)
    (args : string -> string -> string * string -> Js.value -> JsObject)
    (recopy : bool) (path base : string) (issue : Js.value)
  : Script Trees Ref :=
  ReadEnv (fun w =>
    match resolveUpstream w k base with
    | None => Settle (Rejected (UpstreamError base))
    | Some content =>
        let construction :=
          Construct v
            (args path base (upstreamVersion w, hashContent content) issue)
            Settle in
        if recopy then WriteEnv (copyDown w k path content) construction
        else construction
    end).

(** Modelled from the spec: an implementation of [OverrideFactory] (the
    repository's own is in [OverrideFactory.ts]). It knows how to fetch and
    copy file content from the upstream tree and to construct fresh
    overrides: each method resolves the base against the current upstream
    state and returns a freshly pinned override of its class, and is
    rejected when the upstream file or directory cannot be resolved; for a
    copy of a file or of a directory the downstream content is the
    upstream's afterwards. The merged content of a derived or patch override
    is the three-way merge's; it is left as it is here. *)
Definition snapshotFactory (request : FactoryRequest) : Script Trees Ref :=
  match request with
  | CreatePlatform file =>
      Construct VPlatform (<["file" := Js.str file]> ∅) Settle
  | CreateCopy file base issue =>
      pinnedScript VCopy IsFile fileArgs true file base issue
  | CreateDerived file base issue =>
      pinnedScript VDerived IsFile fileArgs false file base issue
  | CreatePatch file base issue =>
      pinnedScript VPatch IsFile fileArgs false file base issue
  | CreateDirectoryCopy dir base issue =>
      pinnedScript VDirectoryCopy IsDirectory directoryArgs true dir base issue
  end.

End Collaborators.


(** ** Sample data *)
Module Samples.

Definition record (fields : list (string * Js.value)) : JsObject :=
  list_to_map fields.

Definition platformArgs : JsObject :=
  record [ ("file", Js.str "src\Libraries\Alert.windows.js") ].

Definition copyArgs : JsObject :=
  record [ ("file", Js.str "src/Libraries/./Text.windows.js");
           ("baseFile", Js.str "Libraries/Text/../Text.js");
           ("baseVersion", Js.str "0.62.0");
           ("baseHash", Js.str "sha1:old text");
           ("issue", Js.number 4242) ].

Definition copyWithoutIssueArgs : JsObject :=
  record [ ("file", Js.str "src/Libraries/Text.windows.js");
           ("baseFile", Js.str "Libraries/Text.js");
           ("baseVersion", Js.str "0.62.0");
           ("baseHash", Js.str "sha1:old text") ].

Definition derivedArgs : JsObject :=
  record [ ("file", Js.str "src\Libraries\View.windows.js");
           ("baseFile", Js.str "Libraries//View.js");
           ("baseVersion", Js.str "0.62.0");
           ("baseHash", Js.str "sha1:view");
           ("issue", Js.str "LEGACY_FIXME") ].

Definition derivedIssueZeroArgs : JsObject :=
  record [ ("file", Js.str "src/Libraries/View.windows.js");
           ("baseFile", Js.str "Libraries/View.js");
           ("baseVersion", Js.str "0.62.0");
           ("baseHash", Js.str "sha1:view");
           ("issue", Js.number 0) ].

Definition directoryRecord : JsObject :=
  record [ ("type", Js.str "copy");
           ("directory", Js.str "a/b");
           ("baseDirectory", Js.str "upstream/a/b");
           ("baseVersion", Js.str "0.62.0");
           ("baseHash", Js.str "sha1:tree");
           ("issue", Js.number 17) ].

Definition copyOverride : Override :=
  Copy {| BaseFileOverride.overrideFile := "src/Libraries/Text.windows.js";
          BaseFileOverride.baseFile := "Libraries/Text.js";
          BaseFileOverride.baseVersion := "0.62.0";
          BaseFileOverride.baseHash := "sha1:old text";
          BaseFileOverride.issueNumber := Js.number 4242 |}.

Definition derivedOverride : Override :=
  Derived {| BaseFileOverride.overrideFile := "src/Libraries/View.windows.js";
             BaseFileOverride.baseFile := "Libraries/View.js";
             BaseFileOverride.baseVersion := "0.62.0";
             BaseFileOverride.baseHash := "sha1:view";
             BaseFileOverride.issueNumber := Js.str "LEGACY_FIXME" |}.

Definition derivedIssueZero : Override :=
  Derived {| BaseFileOverride.overrideFile := "src/Libraries/View.windows.js";
             BaseFileOverride.baseFile := "Libraries/View.js";
             BaseFileOverride.baseVersion := "0.62.0";
             BaseFileOverride.baseHash := "sha1:view";
             BaseFileOverride.issueNumber := Js.null |}.

Definition directoryCopy : DirectoryCopyOverride.t :=
  {| DirectoryCopyOverride.directory := "a/b";
     DirectoryCopyOverride.baseDirectory := "upstream/a/b";
     DirectoryCopyOverride.baseVersion := "0.62.0";
     DirectoryCopyOverride.baseHash := "sha1:tree";
     DirectoryCopyOverride.issue := Js.number 17 |}.

Definition hashContent (content : string) : string := "sha1:" +:+ content.

(** The upstream file has moved on since the copy was made; the downstream
    file still holds the old content. *)
Definition staleTrees : Trees :=
  {| downstream :=
       {[ "src/Libraries/Text.windows.js" := (IsFile, "old text") ]};
     upstream := {[ "Libraries/Text.js" := (IsFile, "new text") ]};
     upstreamVersion := "0.63.0" |}.

(** The trees once the upstream file has been copied down again. *)
Definition recopiedTrees : Trees :=
  copyDown staleTrees IsFile "src/Libraries/Text.windows.js" "new text".

Definition repinnedCopy : Override :=
  Copy {| BaseFileOverride.overrideFile := "src/Libraries/Text.windows.js";
          BaseFileOverride.baseFile := "Libraries/Text.js";
          BaseFileOverride.baseVersion := "0.63.0";
          BaseFileOverride.baseHash := "sha1:new text";
          BaseFileOverride.issueNumber := Js.number 4242 |}.

End Samples.

(** The fields that [deserializeOverride] and the constructors read. *)
Definition serializedFields : list string :=
  [ "type"; "file"; "baseFile"; "directory"; "baseDirectory";
    "baseVersion"; "baseHash"; "issue" ].

(** * Properties *)

(** ** Facts about paths *)

Module NodePathFacts.
Import NodePath.

Lemma split_nonempty s : split s <> [].
Proof.
  destruct s as [|c s]; simpl; [done|].
  destruct (is_sep c); [done|]. destruct (split s); done.
Qed.

Lemma allChars_app P a b :
  allChars P (a +:+ b) = allChars P a && allChars P b.
Proof.
  induction a as [|c a IH]; simpl; [done|].
  rewrite IH. by rewrite andb_assoc.
Qed.

Lemma split_allChars P s :
  allChars P s = true -> Forall (fun seg => allChars P seg = true) (split s).
Proof.
  induction s as [|c s IH]; simpl; intros H.
  - by repeat constructor.
  - apply andb_prop in H as [Hc Hs]. specialize (IH Hs).
    destruct (is_sep c).
    + by constructor.
    + destruct (split s) as [|seg rest]; inversion IH; subst;
        constructor; simpl; try rewrite Hc; auto.
Qed.

Lemma split_sepFree s : Forall sepFree (split s).
Proof.
  induction s as [|c s IH]; simpl.
  - by repeat constructor.
  - destruct (is_sep c) eqn:Hc.
    + by constructor.
    + destruct (split s) as [|seg rest]; inversion IH; subst;
        constructor; unfold sepFree in *; simpl; try rewrite Hc; auto.
Qed.

Lemma join_allChars P segs :
  P sep = true ->
  Forall (fun seg => allChars P seg = true) segs ->
  allChars P (join segs) = true.
Proof.
  intros Hsep. induction 1 as [|x rest Hx Hrest IH]; [done|].
  destruct rest as [|y rest]; [done|].
  change (join (x :: y :: rest)) with (x +:+ String sep (join (y :: rest))).
  rewrite allChars_app, Hx. cbn [allChars andb]. by rewrite Hsep.
Qed.

Lemma split_sepFree_id x : sepFree x -> split x = [ x ].
Proof.
  unfold sepFree. induction x as [|c x IH]; simpl; [done|].
  intros H. apply andb_prop in H as [Hc Hx].
  apply negb_true_iff in Hc. rewrite Hc, (IH Hx). done.
Qed.

Lemma split_app_sep x rest :
  sepFree x -> split (x +:+ String sep rest) = x :: split rest.
Proof.
  unfold sepFree. induction x as [|c x IH]; simpl.
  - intros _. done.
  - intros H. apply andb_prop in H as [Hc Hx].
    apply negb_true_iff in Hc. rewrite Hc, (IH Hx). done.
Qed.

Lemma split_join segs :
  segs <> [] -> Forall sepFree segs -> split (join segs) = segs.
Proof.
  intros Hne H. induction H as [|x rest Hx Hrest IH]; [done|].
  destruct rest as [|y rest].
  - by apply split_sepFree_id.
  - change (join (x :: y :: rest)) with (x +:+ String sep (join (y :: rest))).
    rewrite split_app_sep by done. f_equal. by apply IH.
Qed.

Lemma split_snoc_sep s : split (s +:+ String sep "") = split s ++ [ "" ].
Proof.
  induction s as [|c s IH]; simpl; [done|].
  rewrite IH. destruct (is_sep c); [done|].
  pose proof (split_nonempty s). destruct (split s); done.
Qed.

Lemma normalizeStep_regular allow stack seg :
  regular seg -> normalizeStep allow stack seg = seg :: stack.
Proof.
  intros (H1 & H2 & H3). unfold normalizeStep.
  rewrite !bool_decide_eq_false_2 by done. done.
Qed.

Lemma normalizeStep_empty allow stack :
  normalizeStep allow stack "" = stack.
Proof. done. Qed.

Lemma fold_regular allow l acc :
  Forall regular l ->
  fold_left (normalizeStep allow) l acc = rev l ++ acc.
Proof.
  intros H. revert acc. induction H as [|x l Hx Hl IH]; intros acc; [done|].
  simpl. rewrite normalizeStep_regular by done.
  rewrite IH. by rewrite <- app_assoc.
Qed.

Lemma fold_dots l acc :
  Forall (eq "..") l -> Forall (eq "..") acc ->
  fold_left (normalizeStep true) l acc = l ++ acc.
Proof.
  intros H. revert acc. induction H as [|x l Hx Hl IH]; intros acc Hacc; [done|].
  subst x. simpl.
  assert (normalizeStep true acc ".." = ".." :: acc) as ->.
  { destruct Hacc as [|y acc Hy Hacc]; [done|]. subst y. done. }
  rewrite IH by (by constructor).
  clear IH Hacc. induction Hl as [|y l Hy Hl IH]; [done|].
  subst y. simpl. by rewrite IH.
Qed.

Lemma stackOk_nil allow : stackOk allow [].
Proof. exists [], []. by repeat split. Qed.

Lemma normalizeStep_ok allow stack seg :
  stackOk allow stack -> stackOk allow (normalizeStep allow stack seg).
Proof.
  intros (regs & dots & -> & Hregs & Hdots & Hallow).
  unfold normalizeStep.
  destruct (bool_decide (seg = "")) eqn:E1; simpl.
  { by exists regs, dots. }
  destruct (bool_decide (seg = ".")) eqn:E2; simpl.
  { by exists regs, dots. }
  destruct (bool_decide (seg = "..")) eqn:E3.
  - destruct regs as [|r regs]; simpl.
    + destruct dots as [|d dots].
      * destruct allow; [|apply stackOk_nil].
        exists [], [ ".." ]. repeat split; auto. done.
      * inversion Hdots; subst. rewrite bool_decide_eq_true_2 by done.
        destruct allow.
        -- exists [], (".." :: ".." :: dots). repeat split; auto. done.
        -- exists [], (".." :: dots). repeat split; auto.
    + inversion Hregs as [|? ? (_ & _ & Hr) Hregs']; subst.
      rewrite bool_decide_eq_false_2 by done.
      by exists regs, dots.
  - apply bool_decide_eq_false_1 in E1, E2, E3.
    exists (seg :: regs), dots. repeat split; auto.
    by constructor.
Qed.

Lemma fold_ok allow segs stack :
  stackOk allow stack ->
  stackOk allow (fold_left (normalizeStep allow) segs stack).
Proof.
  revert stack. induction segs as [|seg segs IH]; intros stack H; [done|].
  simpl. by apply IH, normalizeStep_ok.
Qed.

Lemma fold_fixed allow stack :
  stackOk allow stack ->
  fold_left (normalizeStep allow) (rev stack) [] = stack.
Proof.
  intros (regs & dots & -> & Hregs & Hdots & Hallow).
  rewrite rev_app_distr, fold_left_app.
  assert (fold_left (normalizeStep allow) (rev dots) [] = dots) as ->.
  { destruct allow.
    - rewrite fold_dots; [| by apply Forall_rev | done].
      rewrite app_nil_r. clear Hallow.
      induction Hdots as [|d dots Hd Hdots IH]; [done|].
      subst d. simpl. rewrite IH.
      clear IH. induction Hdots as [|d dots Hd Hdots IH]; [done|].
      subst d. simpl. by rewrite IH.
    - by rewrite Hallow. }
  rewrite fold_regular by (by apply Forall_rev).
  by rewrite rev_involutive.
Qed.

Lemma normalizeSegments_idem allow segs :
  normalizeSegments allow (normalizeSegments allow segs)
  = normalizeSegments allow segs.
Proof.
  unfold normalizeSegments. rewrite fold_fixed; [done|].
  apply fold_ok, stackOk_nil.
Qed.

Lemma normalizeStep_Forall (P : string -> Prop) allow stack seg :
  P seg -> Forall P stack -> Forall P (normalizeStep allow stack seg).
Proof.
  intros Hseg Hstack. unfold normalizeStep.
  destruct (_ || _); [done|].
  destruct (bool_decide (seg = "..")) eqn:E.
  - apply bool_decide_eq_true_1 in E. subst seg.
    destruct Hstack as [|top below Htop Hbelow].
    + destruct allow; by repeat constructor.
    + destruct (bool_decide _); [|done].
      destruct allow; by repeat constructor.
  - by constructor.
Qed.

Lemma normalizeSegments_Forall (P : string -> Prop) allow segs :
  Forall P segs -> Forall P (normalizeSegments allow segs).
Proof.
  unfold normalizeSegments. intros H. apply Forall_rev.
  assert (Forall P []) as Hacc by constructor.
  revert Hacc. generalize (@nil string).
  induction H as [|seg segs Hseg Hsegs IH]; intros acc Hacc; [done|].
  simpl. by apply IH, normalizeStep_Forall.
Qed.

Lemma normalizeSegments_nonempty allow segs :
  Forall (fun seg => seg <> "") (normalizeSegments allow segs).
Proof.
  unfold normalizeSegments. apply Forall_rev.
  destruct (fold_ok allow segs [] (stackOk_nil allow))
    as (regs & dots & -> & Hregs & Hdots & _).
  apply Forall_app. split.
  - eapply Forall_impl; [exact Hregs|]. by intros x (H & _).
  - eapply Forall_impl; [exact Hdots|]. by intros x <-.
Qed.

Lemma normalizeSegments_absolute segs :
  Forall regular (normalizeSegments false segs).
Proof.
  unfold normalizeSegments. apply Forall_rev.
  destruct (fold_ok false segs [] (stackOk_nil false))
    as (regs & dots & -> & Hregs & Hdots & Hallow).
  rewrite Hallow by done. by rewrite app_nil_r.
Qed.

Lemma normalizeSegments_cons_empty allow segs :
  normalizeSegments allow ("" :: segs) = normalizeSegments allow segs.
Proof. done. Qed.

Lemma normalizeSegments_snoc_empty allow segs :
  normalizeSegments allow (segs ++ [ "" ]) = normalizeSegments allow segs.
Proof. unfold normalizeSegments. by rewrite fold_left_app. Qed.


Lemma join_cons2 x y rest :
  join (x :: y :: rest) = x +:+ String sep (join (y :: rest)).
Proof. done. Qed.

Lemma join_empty segs :
  Forall (fun seg => seg <> "") segs -> join segs = "" -> segs = [].
Proof.
  intros H. destruct H as [|x rest Hx Hrest]; [done|].
  destruct rest as [|y rest].
  - simpl. by intros ->.
  - rewrite join_cons2. destruct x as [|c x]; [done|]. intros E. inversion E.
Qed.

Lemma isAbsolute_join segs post :
  Forall (fun seg => seg <> "") segs -> Forall sepFree segs -> segs <> [] ->
  isAbsolute (join segs +:+ post) = false.
Proof.
  intros Hne Hfree Hsegs.
  destruct Hne as [|x rest Hx _]; [done|].
  inversion Hfree as [|? ? Hfx _]; subst.
  destruct x as [|c x]; [done|].
  unfold sepFree in Hfx. simpl in Hfx.
  apply andb_prop in Hfx as [Hc _]. apply negb_true_iff in Hc.
  destruct rest; [|rewrite join_cons2]; simpl; done.
Qed.

Lemma trailingSeparator_cons c s :
  s <> "" -> trailingSeparator (String c s) = trailingSeparator s.
Proof. by destruct s. Qed.

Lemma trailingSeparator_app a b :
  b <> "" -> trailingSeparator (a +:+ b) = trailingSeparator b.
Proof.
  intros Hb. induction a as [|c a IH]; [done|].
  change (String c a +:+ b) with (String c (a +:+ b)).
  cbn [trailingSeparator]. rewrite IH.
  destruct (a +:+ b) eqn:E; [|done].
  destruct a; [simpl in E; done | done].
Qed.

Lemma trailingSeparator_sepFree x :
  sepFree x -> trailingSeparator x = false.
Proof.
  unfold sepFree. induction x as [|c x IH]; [done|].
  simpl. intros H. apply andb_prop in H as [Hc Hx].
  apply negb_true_iff in Hc. destruct x; [done|]. by apply IH.
Qed.

Lemma trailingSeparator_join segs :
  Forall (fun seg => seg <> "") segs -> Forall sepFree segs ->
  trailingSeparator (join segs) = false.
Proof.
  intros Hne. induction Hne as [|x rest Hx Hrest IH]; intros Hfree; [done|].
  inversion Hfree as [|? ? Hfx Hfrest]; subst.
  destruct rest as [|y rest]; [by apply trailingSeparator_sepFree|].
  rewrite join_cons2, trailingSeparator_app by done.
  specialize (IH Hfrest).
  cbn [trailingSeparator].
  destruct (join (y :: rest)) eqn:E; [|done].
  apply join_empty in E; done.
Qed.

(** [path.normalize] is idempotent. *)
Lemma normalize_idem p : normalize (normalize p) = normalize p.
Proof.
  unfold normalize at 2 3.
  destruct (bool_decide (p = "")); [reflexivity|].
  unfold normalizeString.
  set (allow := negb (isAbsolute p)).
  set (segs := normalizeSegments allow (split p)).
  assert (Hne : Forall (fun seg => seg <> "") segs)
    by apply normalizeSegments_nonempty.
  assert (Hfree : Forall sepFree segs)
    by apply normalizeSegments_Forall, split_sepFree.
  assert (Hidem : normalizeSegments allow segs = segs)
    by apply normalizeSegments_idem.
  destruct (bool_decide (join segs = "")) eqn:Hbody.
  { destruct (isAbsolute p), (trailingSeparator p); reflexivity. }
  apply bool_decide_eq_false_1 in Hbody.
  assert (Hsegs : segs <> []) by (by intros E; rewrite E in Hbody).
  assert (Hsplit : split (join segs) = segs) by (by apply split_join).
  assert (Hsplit' : split (join segs +:+ "/") = segs ++ [ "" ])
    by (by rewrite split_snoc_sep, Hsplit).
  pose proof (isAbsolute_join segs "" Hne Hfree Hsegs) as Habs0.
  pose proof (isAbsolute_join segs "/" Hne Hfree Hsegs) as Habs1.
  pose proof (trailingSeparator_join segs Hne Hfree) as Htrail0.
  assert (Htrail1 : forall a, trailingSeparator (a +:+ "/") = true).
  { intros a. by rewrite trailingSeparator_app. }
  assert (Hjoin : forall a, a +:+ "" = a).
  { intros a. induction a as [|c a IH]; [done|].
    change (String c a +:+ "") with (String c (a +:+ "")). by rewrite IH. }
  unfold normalize, normalizeString. subst allow.
  destruct (isAbsolute p), (trailingSeparator p); cbn [negb] in *.
  - change ("/" +:+ join segs +:+ "/") with (String sep (join segs +:+ "/")).
    rewrite bool_decide_eq_false_2 by done.
    cbn [isAbsolute split].
    replace (is_sep sep) with true by done. cbn [negb].
    rewrite Hsplit', normalizeSegments_cons_empty,
      normalizeSegments_snoc_empty, Hidem.
    rewrite bool_decide_eq_false_2 by done.
    rewrite trailingSeparator_cons by (by destruct (join segs)).
    by rewrite Htrail1.
  - rewrite Hjoin.
    change ("/" +:+ join segs) with (String sep (join segs)).
    rewrite bool_decide_eq_false_2 by done.
    cbn [isAbsolute split].
    replace (is_sep sep) with true by done. cbn [negb].
    rewrite Hsplit, normalizeSegments_cons_empty, Hidem.
    rewrite bool_decide_eq_false_2 by done.
    rewrite trailingSeparator_cons, Htrail0 by done.
    by rewrite Hjoin.
  - change ("" +:+ join segs +:+ "/") with (join segs +:+ "/").
    rewrite (bool_decide_eq_false_2 (join segs +:+ "/" = ""))
      by (by destruct (join segs)).
    rewrite Habs1, Hsplit'. cbn [negb].
    rewrite normalizeSegments_snoc_empty, Hidem.
    rewrite bool_decide_eq_false_2 by done.
    by rewrite Htrail1.
  - change ("" +:+ join segs +:+ "") with (join segs +:+ "").
    rewrite Hjoin in *.
    rewrite (bool_decide_eq_false_2 (join segs = "")) by done.
    rewrite Habs0, Hsplit. cbn [negb].
    rewrite Hidem.
    rewrite bool_decide_eq_false_2 by done.
    by rewrite Htrail0, Hjoin.
Qed.

End NodePathFacts.

Module PathUtilsFacts.
Import NodePath NodePathFacts PathUtils.

Lemma unixPath_notBackslash s : allChars notBackslash (unixPath s) = true.
Proof.
  induction s as [|c s IH]; [done|].
  simpl. rewrite IH, andb_true_r. unfold notBackslash.
  by destruct (bool_decide (c = "\"%char)) eqn:E; [|rewrite E].
Qed.

Lemma unixPath_fixed s : allChars notBackslash s = true -> unixPath s = s.
Proof.
  induction s as [|c s IH]; [done|].
  simpl. intros H. apply andb_prop in H as [Hc Hs].
  apply negb_true_iff in Hc. by rewrite Hc, IH.
Qed.

Lemma normalize_notBackslash q :
  allChars notBackslash q = true ->
  allChars notBackslash (normalize q) = true.
Proof.
  intros Hq. unfold normalize, normalizeString.
  destruct (bool_decide (q = "")); [done|].
  destruct (bool_decide (_ = "")).
  { by destruct (isAbsolute q), (trailingSeparator q). }
  rewrite !allChars_app, join_allChars.
  - by destruct (isAbsolute q), (trailingSeparator q).
  - done.
  - by apply normalizeSegments_Forall, split_allChars.
Qed.

(** A normalized path is its own serialization form on this platform. *)
Lemma unixPath_normalizePath p : unixPath (normalizePath p) = normalizePath p.
Proof.
  apply unixPath_fixed, normalize_notBackslash, unixPath_notBackslash.
Qed.

Lemma normalizePath_idem p : normalizePath (normalizePath p) = normalizePath p.
Proof.
  unfold normalizePath at 1. rewrite unixPath_normalizePath.
  apply normalize_idem.
Qed.

(** The name of an override survives serialization and normalization. *)
Lemma normalizePath_unixPath_normalizePath p :
  normalizePath (unixPath (normalizePath p)) = normalizePath p.
Proof. rewrite unixPath_normalizePath. apply normalizePath_idem. Qed.

End PathUtilsFacts.

Module RelativeFacts.
Import NodePath NodePathFacts PathUtils PathUtilsFacts.

Lemma relative_same cwd p : relative cwd p p = "".
Proof. unfold relative. by rewrite bool_decide_eq_true_2. Qed.

Lemma split_app_sep_any a b :
  split (a +:+ String sep b) = split a ++ split b.
Proof.
  induction a as [|c a IH]; [done|].
  change (String c a +:+ String sep b) with (String c (a +:+ String sep b)).
  cbn [split]. rewrite IH. destruct (is_sep c); [done|].
  pose proof (split_nonempty a). destruct (split a); done.
Qed.

Lemma stripCommon_app base from to :
  stripCommon (base ++ from) (base ++ to) = stripCommon from to.
Proof.
  induction base as [|x base IH]; [done|].
  simpl. by rewrite bool_decide_eq_true_2.
Qed.

(** Resolving a relative path made of kept segments appends them to the
    resolved working directory. *)
Lemma resolveSegments_relative cwd p :
  p <> "" -> isAbsolute p = false ->
  resolveSegments cwd p
  = rev (fold_left (normalizeStep (negb (isAbsolute cwd)))
           (split (p +:+ "/"))
           (fold_left (normalizeStep (negb (isAbsolute cwd))) (split cwd) [])).
Proof.
  intros Hp Habs. unfold resolveSegments.
  rewrite Habs, (bool_decide_eq_false_2 (p = "")) by done.
  destruct (bool_decide (cwd = "")) eqn:E.
  - apply bool_decide_eq_true_1 in E. subst cwd. reflexivity.
  - unfold normalizeSegments.
    change (cwd +:+ "/" +:+ p +:+ "/") with (cwd +:+ String sep (p +:+ "/")).
    by rewrite split_app_sep_any, fold_left_app.
Qed.

Lemma first_of_join segs :
  Forall sepFree segs ->
  split (join segs) !! 0%nat = Some (default "" (head segs)).
Proof.
  intros H. destruct segs as [|x segs]; [done|].
  rewrite split_join; done.
Qed.

Lemma join_nonempty segs :
  Forall regular segs -> segs <> [] -> join segs <> "".
Proof.
  intros Hreg Hne E. apply join_empty in E; [done|].
  eapply Forall_impl; [exact Hreg|]. by intros x (H & _).
Qed.

(** Resolving a relative path made of kept segments appends them to the
    resolved working directory. *)
Lemma resolveSegments_regular cwd segs :
  Forall regular segs -> Forall sepFree segs -> segs <> [] ->
  resolveSegments cwd (join segs) = cwdSegments cwd ++ segs.
Proof.
  intros Hreg Hfree Hne.
  assert (Hnonempty : Forall (fun seg => seg <> "") segs).
  { eapply Forall_impl; [exact Hreg|]. by intros x (H & _). }
  pose proof (isAbsolute_join segs "" Hnonempty Hfree Hne) as Habs.
  assert (Hjoin : join segs +:+ "" = join segs).
  { generalize (join segs). intros a. induction a as [|c a IH]; [done|].
    change (String c a +:+ "") with (String c (a +:+ "")). by rewrite IH. }
  rewrite Hjoin in Habs.
  rewrite resolveSegments_relative by (by auto using join_nonempty).
  change (join segs +:+ "/") with (join segs +:+ String sep "").
  rewrite split_snoc_sep, split_join by done.
  rewrite fold_left_app. cbn [fold_left]. rewrite normalizeStep_empty.
  rewrite fold_regular by done.
  rewrite rev_app_distr, rev_involutive. done.
Qed.

Lemma relative_regular cwd from to :
  Forall regular from -> Forall sepFree from -> from <> [] ->
  Forall regular to -> Forall sepFree to -> to <> [] ->
  relative cwd (join from) (join to)
  = if bool_decide (join from = join to) then ""
    else let '(up, down) := stripCommon from to in
         join (map (fun _ => "..") up ++ down).
Proof.
  intros. unfold relative.
  rewrite !resolveSegments_regular, stripCommon_app by done. done.
Qed.

(** [stripCommon] removes a common prefix and stops at the first difference. *)
Lemma stripCommon_spec from to up down :
  stripCommon from to = (up, down) ->
  exists common,
    from = common ++ up /\ to = common ++ down
    /\ (up = [] \/ down = [] \/ head up <> head down).
Proof.
  revert to up down. induction from as [|f from IH]; intros to up down H.
  - simpl in H. injection H as <- <-. exists []. auto.
  - destruct to as [|t to].
    + simpl in H. injection H as <- <-. exists []. auto.
    + simpl in H. destruct (bool_decide_reflect (f = t)) as [->|Hne].
      * destruct (IH _ _ _ H) as (common & -> & -> & Hstop).
        by exists (t :: common).
      * injection H as <- <-. exists []. repeat split.
        right. right. simpl. congruence.
Qed.

Lemma stripCommon_prefix from to up down :
  stripCommon from to = (up, down) -> (up = [] <-> from `prefix_of` to).
Proof.
  intros H. destruct (stripCommon_spec _ _ _ _ H) as (common & -> & -> & Hstop).
  split.
  - intros ->. rewrite app_nil_r. by apply prefix_app_r.
  - intros Hpre. apply prefix_app_inv in Hpre.
    destruct up as [|u up]; [done|].
    destruct Hpre as [rest ->].
    destruct Hstop as [?|[?|Hhd]]; try done.
Qed.

Lemma resolveSegments_absolute cwd p :
  isAbsolute cwd = true ->
  Forall regular (resolveSegments cwd p)
  /\ Forall sepFree (resolveSegments cwd p).
Proof.
  intros Hcwd. unfold resolveSegments.
  destruct (isAbsolute p).
  - split; [apply normalizeSegments_absolute|].
    apply normalizeSegments_Forall, split_sepFree.
  - rewrite bool_decide_eq_false_2 by (by intros ->).
    rewrite Hcwd. split; [apply normalizeSegments_absolute|].
    apply normalizeSegments_Forall, split_sepFree.
Qed.

End RelativeFacts.

(** ** Facts about overrides *)

Module OverrideFacts.
Import PathUtilsFacts.

Lemma or_null_fixed v : Js.or (Js.or v Js.null) Js.null = Js.or v Js.null.
Proof. unfold Js.or. by destruct (Js.truthy v) eqn:E; [rewrite E|]. Qed.

Lemma BaseFileOverride_new_invariant args b :
  BaseFileOverride.new args = Some b ->
  normalized (BaseFileOverride.overrideFile b)
  /\ normalized (BaseFileOverride.baseFile b)
  /\ Js.or (BaseFileOverride.issueNumber b) Js.null
     = BaseFileOverride.issueNumber b.
Proof.
  unfold BaseFileOverride.new. intros H. simplify_option_eq.
  repeat split; simpl; try apply normalizePath_idem. apply or_null_fixed.
Qed.

(** Every constructor leaves the instance with normalized paths. *)
Lemma construct_invariant v args o :
  construct v args = Some o -> invariant o.
Proof.
  destruct v; simpl; intros H.
  - unfold PlatformOverride.new in H. simplify_option_eq.
    apply normalizePath_idem.
  - unfold CopyOverride.new in H.
    destruct (BaseFileOverride.new args) eqn:E; simplify_eq/=.
    by apply BaseFileOverride_new_invariant in E.
  - unfold DerivedOverride.new in H.
    destruct (BaseFileOverride.new args) eqn:E; simplify_eq/=.
    by apply BaseFileOverride_new_invariant in E.
  - unfold PatchOverride.new in H.
    destruct (BaseFileOverride.new args) eqn:E; simplify_eq/=.
    by apply BaseFileOverride_new_invariant in E.
  - unfold DirectoryCopyOverride.new in H. simplify_option_eq.
    split; apply normalizePath_idem.
Qed.

Lemma construct_variant v args o :
  construct v args = Some o -> variant o = v.
Proof.
  destruct v; simpl; intros H;
    repeat match goal with
    | H : _ <$> ?x = Some _ |- _ => destruct x; simplify_eq/=
    end; done.
Qed.

Lemma normalized_unixPath path :
  normalized path -> normalizePath (unixPath path) = path.
Proof.
  unfold normalized. intros H. rewrite <- H at 1.
  by rewrite normalizePath_unixPath_normalizePath.
Qed.

Lemma PlatformOverride_roundtrip p :
  normalized (PlatformOverride.overrideFile p) ->
  PlatformOverride.fromSerialized (PlatformOverride.serialize p) = Some p.
Proof.
  intros H. unfold PlatformOverride.fromSerialized, PlatformOverride.new.
  change (Js.get (PlatformOverride.serialize p) "file")
    with (Js.str (unixPath (PlatformOverride.overrideFile p))).
  cbn [Js.asString mbind option_bind].
  rewrite normalized_unixPath by done. by destruct p.
Qed.

Lemma BaseFileOverride_roundtrip (record : JsObject) b :
  Js.get record "file" = Js.str (unixPath (BaseFileOverride.overrideFile b)) ->
  Js.get record "baseFile" = Js.str (unixPath (BaseFileOverride.baseFile b)) ->
  Js.get record "baseVersion" = Js.str (BaseFileOverride.baseVersion b) ->
  Js.get record "baseHash" = Js.str (BaseFileOverride.baseHash b) ->
  Js.or (Js.get record "issue") Js.null = BaseFileOverride.issueNumber b ->
  normalized (BaseFileOverride.overrideFile b) ->
  normalized (BaseFileOverride.baseFile b) ->
  BaseFileOverride.new record = Some b.
Proof.
  intros H1 H2 H3 H4 Hissue Hf Hb. unfold BaseFileOverride.new.
  rewrite H1, H2, H3, H4, Hissue.
  cbn [Js.asString mbind option_bind].
  rewrite !normalized_unixPath by done. by destruct b.
Qed.

Lemma or_undefined_or_null v :
  Js.or v Js.null = v -> Js.or (Js.or v Js.undefined) Js.null = v.
Proof.
  unfold Js.or. destruct (Js.truthy v) eqn:E; [by rewrite E|].
  by intros <-.
Qed.

Lemma DirectoryCopyOverride_roundtrip d :
  normalized (DirectoryCopyOverride.directory d) ->
  normalized (DirectoryCopyOverride.baseDirectory d) ->
  DirectoryCopyOverride.fromSerialized (DirectoryCopyOverride.serialize d)
  = Some d.
Proof.
  intros Hd Hb.
  unfold DirectoryCopyOverride.fromSerialized, DirectoryCopyOverride.new.
  change (Js.get (DirectoryCopyOverride.serialize d) "directory")
    with (Js.str (unixPath (DirectoryCopyOverride.directory d))).
  change (Js.get (DirectoryCopyOverride.serialize d) "baseDirectory")
    with (Js.str (unixPath (DirectoryCopyOverride.baseDirectory d))).
  change (Js.get (DirectoryCopyOverride.serialize d) "baseVersion")
    with (Js.str (DirectoryCopyOverride.baseVersion d)).
  change (Js.get (DirectoryCopyOverride.serialize d) "baseHash")
    with (Js.str (DirectoryCopyOverride.baseHash d)).
  change (Js.get (DirectoryCopyOverride.serialize d) "issue")
    with (DirectoryCopyOverride.issue d).
  cbn [Js.asString mbind option_bind].
  rewrite !normalized_unixPath by done. by destruct d.
Qed.

(** Deserializing the serialized form gives back the same instance state. *)
Lemma roundtrip_exact o :
  invariant o -> deserializeOverride (serialize o) = Some o.
Proof.
  destruct o as [p|b|b|b|d]; cbn [invariant serialize].
  - intros H. unfold deserializeOverride.
    change (Js.get (PlatformOverride.serialize p) "type")
      with (Js.str "platform").
    cbv beta iota. rewrite bool_decide_eq_true_2 by done.
    by rewrite PlatformOverride_roundtrip.
  - intros (Hf & Hb & Hi). unfold deserializeOverride.
    change (Js.get (CopyOverride.serialize b) "type") with (Js.str "copy").
    change (Js.has "directory" (CopyOverride.serialize b)) with false.
    cbv beta iota. rewrite bool_decide_eq_false_2, bool_decide_eq_true_2 by done.
    unfold CopyOverride.fromSerialized, CopyOverride.new.
    by rewrite (BaseFileOverride_roundtrip _ b).
  - intros (Hf & Hb & Hi). unfold deserializeOverride.
    change (Js.get (DerivedOverride.serialize b) "type")
      with (Js.str "derived").
    cbv beta iota. rewrite !bool_decide_eq_false_2, bool_decide_eq_true_2 by done.
    unfold DerivedOverride.fromSerialized, DerivedOverride.new.
    rewrite (BaseFileOverride_roundtrip _ b); try done.
    by apply or_undefined_or_null.
  - intros (Hf & Hb & Hi). unfold deserializeOverride.
    change (Js.get (PatchOverride.serialize b) "type") with (Js.str "patch").
    cbv beta iota. rewrite !bool_decide_eq_false_2, bool_decide_eq_true_2 by done.
    unfold PatchOverride.fromSerialized, PatchOverride.new.
    by rewrite (BaseFileOverride_roundtrip _ b).
  - intros (Hd & Hb). unfold deserializeOverride.
    change (Js.get (DirectoryCopyOverride.serialize d) "type")
      with (Js.str "copy").
    change (Js.has "directory" (DirectoryCopyOverride.serialize d)) with true.
    cbv beta iota. rewrite bool_decide_eq_false_2, bool_decide_eq_true_2 by done.
    by rewrite DirectoryCopyOverride_roundtrip.
Qed.

(** C1. Round trip: for an override [o] of any class, built by its
    constructor, [deserializeOverride(o.serialize())] is an override of the
    same class with the same [name()], the same [validationStrategies()]
    (same checks, same path and hash parameters) and the same
    [upgradeStrategy()]. *)
Theorem deserialize_serialize_roundtrip v args o :
  construct v args = Some o ->
  exists o',
    deserializeOverride (serialize o) = Some o'
    /\ variant o' = variant o
    /\ name o' = name o
    /\ validationStrategies o' = validationStrategies o
    /\ upgradeStrategy o' = upgradeStrategy o.
Proof.
  intros H. exists o. split; [|done].
  by eapply roundtrip_exact, construct_invariant.
Qed.

Lemma includesFile_file_variant cwd o p :
  variant o <> VDirectoryCopy ->
  includesFile cwd o p = bool_decide (normalizePath p = name o).
Proof. by destruct o. Qed.

Lemma includesFile_directory_examples cwd d :
  DirectoryCopyOverride.directory d = "a/b" ->
  includesFile cwd (DirectoryCopy d) "a/b/c.txt" = true
  /\ includesFile cwd (DirectoryCopy d) "a/c/../b/c.txt" = true
  /\ includesFile cwd (DirectoryCopy d) "a/other.txt" = false.
Proof.
  intros Hd. cbn [includesFile]. unfold DirectoryCopyOverride.includesFile.
  rewrite Hd.
  change (normalizePath "a/b/c.txt") with (NodePath.join [ "a"; "b"; "c.txt" ]).
  change (normalizePath "a/c/../b/c.txt")
    with (NodePath.join [ "a"; "b"; "c.txt" ]).
  change (normalizePath "a/other.txt")
    with (NodePath.join [ "a"; "other.txt" ]).
  change "a/b" with (NodePath.join [ "a"; "b" ]).
  assert (Hreg : forall l, Forall (fun x => x ∈ [ "a"; "b"; "c.txt"; "other.txt" ]) l ->
                   Forall NodePath.regular l /\ Forall NodePath.sepFree l).
  { intros l Hl. split; (eapply Forall_impl; [exact Hl|]); intros x Hx;
      repeat (apply elem_of_cons in Hx as [->|Hx]; [by repeat split|]);
      by apply elem_of_nil in Hx. }
  rewrite !RelativeFacts.relative_regular;
    try (done || (apply Hreg; repeat constructor; set_solver)).
Qed.

(** X7. On a POSIX platform, which is the flavour of [path] modelled here
    (separator [/], no drives), and with an absolute working directory, a
    path is inside the directory override exactly when the resolved
    directory is a prefix, segment by segment, of the resolved path. *)
Lemma includesFile_directory_prefix cwd d p :
  NodePath.isAbsolute cwd = true ->
  includesFile cwd (DirectoryCopy d) p = true
  <-> NodePath.resolveSegments cwd (DirectoryCopyOverride.directory d)
      `prefix_of` NodePath.resolveSegments cwd (normalizePath p).
Proof.
  intros Hcwd. cbn [includesFile].
  unfold DirectoryCopyOverride.includesFile, NodePath.relative.
  set (from := DirectoryCopyOverride.directory d).
  set (to := normalizePath p).
  destruct (bool_decide_reflect (from = to)) as [->|Hne]; [done|].
  destruct (RelativeFacts.resolveSegments_absolute cwd from Hcwd) as [_ Hfrom].
  destruct (RelativeFacts.resolveSegments_absolute cwd to Hcwd) as [Hreg Hto].
  destruct (NodePath.stripCommon _ _) as [up down] eqn:Hstrip.
  rewrite <- (RelativeFacts.stripCommon_prefix _ _ _ _ Hstrip).
  destruct (RelativeFacts.stripCommon_spec _ _ _ _ Hstrip) as (common & Ef & Et & _).
  rewrite Ef in Hfrom. rewrite Et in Hreg, Hto.
  apply Forall_app in Hfrom as [_ Hup], Hreg as [_ Hreg], Hto as [_ Hdown].
  rewrite RelativeFacts.first_of_join.
  2:{ apply Forall_app. split; [|done]. apply Forall_forall.
      intros x Hx. apply list_elem_of_In, in_map_iff in Hx as (? & <- & _).
      done. }
  destruct up as [|u up]; cbn [map app head default].
  - destruct down as [|t down]; [done|].
    inversion Hreg as [|? ? (_ & _ & Hdd) _]; subst.
    cbn [head default]. by rewrite bool_decide_eq_false_2.
  - done.
Qed.

(** C9. An override includes the path it is named after: for a file
    override the name is already normalized; for a directory override the
    path of the directory relative to itself is empty, which is not a
    parent reference. *)
Theorem includesFile_own_name cwd v args o :
  construct v args = Some o ->
  includesFile cwd o (name o) = true
  /\ (forall d, o = DirectoryCopy d ->
        NodePath.relative cwd (DirectoryCopyOverride.directory d)
          (normalizePath (name o)) = "").
Proof.
  intros H. apply construct_invariant in H.
  destruct o as [p|b|b|b|d]; cbn [invariant includesFile name] in *;
    try (split; [|done]).
  - by apply bool_decide_eq_true_2.
  - by apply bool_decide_eq_true_2, H.
  - by apply bool_decide_eq_true_2, H.
  - by apply bool_decide_eq_true_2, H.
  - destruct H as [Hd _]. unfold normalized in Hd.
    unfold DirectoryCopyOverride.includesFile, DirectoryCopyOverride.name.
    rewrite Hd, RelativeFacts.relative_same. split; [done|].
    intros d' [= <-]. apply RelativeFacts.relative_same.
Qed.

Lemma BaseFileOverride_new_strings (args : JsObject) f bf bv bh :
  Js.get args "file" = Js.str f ->
  Js.get args "baseFile" = Js.str bf ->
  Js.get args "baseVersion" = Js.str bv ->
  Js.get args "baseHash" = Js.str bh ->
  BaseFileOverride.new args
  = Some {| BaseFileOverride.overrideFile := normalizePath f;
            BaseFileOverride.baseFile := normalizePath bf;
            BaseFileOverride.baseVersion := bv;
            BaseFileOverride.baseHash := bh;
            BaseFileOverride.issueNumber :=
              Js.or (Js.get args "issue") Js.null |}.
Proof.
  intros Hf Hbf Hbv Hbh. unfold BaseFileOverride.new.
  by rewrite Hf, Hbf, Hbv, Hbh.
Qed.


(** C2. [deserializeOverride] maps a record with the tag [platform],
    [derived] or [patch] and the string fields of that class to an override
    of that class, and a record with the tag [copy] to a directory copy
    when it has a [directory] field and to a file copy when it has none; no
    other tag gives an override. A serialized directory copy carries the
    tag [copy] with [directory]/[baseDirectory] and neither [file] nor
    [baseFile]. *)
Theorem deserializeOverride_dispatch :
  (forall ovr f,
     Js.get ovr "type" = Js.str "platform" ->
     Js.get ovr "file" = Js.str f ->
     deserializeOverride ovr
     = Some (Platform {| PlatformOverride.overrideFile := normalizePath f |}))
  /\ (forall ovr f bf bv bh,
        Js.get ovr "file" = Js.str f ->
        Js.get ovr "baseFile" = Js.str bf ->
        Js.get ovr "baseVersion" = Js.str bv ->
        Js.get ovr "baseHash" = Js.str bh ->
        let stored :=
          {| BaseFileOverride.overrideFile := normalizePath f;
             BaseFileOverride.baseFile := normalizePath bf;
             BaseFileOverride.baseVersion := bv;
             BaseFileOverride.baseHash := bh;
             BaseFileOverride.issueNumber :=
               Js.or (Js.get ovr "issue") Js.null |} in
        (Js.get ovr "type" = Js.str "derived" ->
         deserializeOverride ovr = Some (Derived stored))
        /\ (Js.get ovr "type" = Js.str "patch" ->
            deserializeOverride ovr = Some (Patch stored))
        /\ (Js.get ovr "type" = Js.str "copy" ->
            Js.has "directory" ovr = false ->
            deserializeOverride ovr = Some (Copy stored)))
  /\ (forall ovr d bd bv bh,
        Js.get ovr "type" = Js.str "copy" ->
        Js.has "directory" ovr = true ->
        Js.get ovr "directory" = Js.str d ->
        Js.get ovr "baseDirectory" = Js.str bd ->
        Js.get ovr "baseVersion" = Js.str bv ->
        Js.get ovr "baseHash" = Js.str bh ->
        deserializeOverride ovr
        = Some (DirectoryCopy
                  {| DirectoryCopyOverride.directory := normalizePath d;
                     DirectoryCopyOverride.baseDirectory := normalizePath bd;
                     DirectoryCopyOverride.baseVersion := bv;
                     DirectoryCopyOverride.baseHash := bh;
                     DirectoryCopyOverride.issue := Js.get ovr "issue" |}))
  /\ (forall ovr o,
        deserializeOverride ovr = Some o ->
        Js.get ovr "type" = Js.str (typeTag (variant o))
        /\ (variant o = VDirectoryCopy <-> 
            Js.get ovr "type" = Js.str "copy"
            /\ Js.has "directory" ovr = true)
        /\ (variant o = VCopy <->
            Js.get ovr "type" = Js.str "copy"
            /\ Js.has "directory" ovr = false))
  /\ (forall d,
        let record := serialize (DirectoryCopy d) in
        Js.get record "type" = Js.str "copy"
        /\ Js.get record "directory"
           = Js.str (unixPath (DirectoryCopyOverride.directory d))
        /\ Js.get record "baseDirectory"
           = Js.str (unixPath (DirectoryCopyOverride.baseDirectory d))
        /\ Js.has "directory" record = true
        /\ Js.has "baseDirectory" record = true
        /\ Js.has "file" record = false
        /\ Js.has "baseFile" record = false).
Proof.
  split; [|split; [|split; [|split]]].
  - intros ovr f Htype Hf. unfold deserializeOverride.
    rewrite Htype, bool_decide_eq_true_2 by done.
    unfold PlatformOverride.fromSerialized, PlatformOverride.new.
    by rewrite Hf.
  - intros ovr f bf bv bh Hf Hbf Hbv Hbh stored.
    pose proof (BaseFileOverride_new_strings ovr f bf bv bh Hf Hbf Hbv Hbh)
      as Hnew.
    unfold deserializeOverride.
    split; [|split]; intros Htype; rewrite Htype.
    + rewrite !bool_decide_eq_false_2, bool_decide_eq_true_2 by done.
      unfold DerivedOverride.fromSerialized, DerivedOverride.new.
      by rewrite Hnew.
    + rewrite !bool_decide_eq_false_2, bool_decide_eq_true_2 by done.
      unfold PatchOverride.fromSerialized, PatchOverride.new.
      by rewrite Hnew.
    + intros Hdir.
      rewrite bool_decide_eq_false_2, bool_decide_eq_true_2, Hdir by done.
      unfold CopyOverride.fromSerialized, CopyOverride.new.
      by rewrite Hnew.
  - intros ovr d bd bv bh Htype Hdir Hd Hbd Hbv Hbh.
    unfold deserializeOverride.
    rewrite Htype, bool_decide_eq_false_2, bool_decide_eq_true_2, Hdir
      by done.
    unfold DirectoryCopyOverride.fromSerialized, DirectoryCopyOverride.new.
    by rewrite Hd, Hbd, Hbv, Hbh.
  - intros ovr o H. unfold deserializeOverride in H.
    destruct (Js.get ovr "type") as [| |n|type]; try done.
    repeat match type of H with
    | (if bool_decide ?P then _ else _) = _ =>
        destruct (bool_decide_reflect P); [subst type|]
    | (if Js.has ?k ?r then _ else _) = _ => destruct (Js.has k r) eqn:Hdir
    end; try done;
    match type of H with
    | _ <$> ?x = Some _ => destruct x; simplify_eq/=
    end;
    (split; [done|]); split; split;
      try done; try (by intros [? ?]); by intros [[= ?] ?].
  - by repeat split.
Qed.

(** C4. The checks of each class: a platform override has the single
    existence check; copy, derived and patch overrides have the three
    shared file checks followed by one content check that is not among
    them; a directory copy has its four checks. *)
Theorem validationStrategies_by_variant :
  (forall p,
     validationStrategies (Platform p)
     = [ overrideFileExists (PlatformOverride.overrideFile p) ])
  /\ (forall b,
        let file := BaseFileOverride.overrideFile b in
        let base := BaseFileOverride.baseFile b in
        let shared :=
          [ baseFileExists file base;
            overrideFileExists file;
            baseUpToDate file base (BaseFileOverride.baseHash b) ] in
        BaseFileOverride.validationStrategies b = shared
        /\ validationStrategies (Copy b)
           = shared ++ [ overrideCopyOfBase file base ]
        /\ validationStrategies (Derived b)
           = shared ++ [ overrideDifferentFromBase file base ]
        /\ validationStrategies (Patch b)
           = shared ++ [ overrideDifferentFromBase file base ]
        /\ (overrideCopyOfBase file base ∉ shared)
        /\ (overrideDifferentFromBase file base ∉ shared))
  /\ (forall d,
        let dir := DirectoryCopyOverride.directory d in
        let base := DirectoryCopyOverride.baseDirectory d in
        validationStrategies (DirectoryCopy d)
        = [ overrideDirectoryExists dir;
            baseDirectoryExists dir base;
            baseUpToDate dir base (DirectoryCopyOverride.baseHash d);
            overrideCopyOfBase dir base ]).
Proof.
  repeat split; try done;
    intros Hin; repeat (apply elem_of_cons in Hin as [Hin|Hin]; [done|]);
    by apply elem_of_nil in Hin.
Qed.

(** C5. The upgrade strategy of each class, a function of the stored
    fields alone. *)
Theorem upgradeStrategy_by_variant :
  (forall p,
     upgradeStrategy (Platform p)
     = assumeUpToDate (PlatformOverride.overrideFile p))
  /\ (forall b,
        upgradeStrategy (Copy b)
        = copyFile (BaseFileOverride.overrideFile b)
            (BaseFileOverride.baseFile b))
  /\ (forall b,
        upgradeStrategy (Derived b)
        = threeWayMerge (BaseFileOverride.overrideFile b)
            (BaseFileOverride.baseFile b) (BaseFileOverride.baseVersion b)
        /\ upgradeStrategy (Patch b) = upgradeStrategy (Derived b))
  /\ (forall d,
        upgradeStrategy (DirectoryCopy d)
        = copyDirectory (DirectoryCopyOverride.directory d)
            (DirectoryCopyOverride.baseDirectory d)).
Proof. by repeat split. Qed.

(** C3. A file override includes exactly the paths that normalize to its
    stored path; a directory override includes exactly the paths whose
    path relative to the directory does not start with a parent
    reference. For the directory [a/b], whatever the working directory:
    [a/b/c.txt] and [a/c/../b/c.txt] are included, [a/other.txt] is not. *)
Theorem includesFile_scope cwd :
  (forall o p,
     variant o <> VDirectoryCopy ->
     includesFile cwd o p = true <-> normalizePath p = name o)
  /\ (forall d p,
        includesFile cwd (DirectoryCopy d) p = true
        <-> NodePath.split
              (NodePath.relative cwd (DirectoryCopyOverride.directory d)
                 (normalizePath p)) !! 0%nat <> Some "..")
  /\ (forall d,
        DirectoryCopyOverride.directory d = "a/b" ->
        includesFile cwd (DirectoryCopy d) "a/b/c.txt" = true
        /\ includesFile cwd (DirectoryCopy d) "a/c/../b/c.txt" = true
        /\ includesFile cwd (DirectoryCopy d) "a/other.txt" = false).
Proof.
  split; [|split].
  - intros o p Hv. rewrite includesFile_file_variant by done.
    apply bool_decide_eq_true.
  - intros d p. cbn [includesFile].
    unfold DirectoryCopyOverride.includesFile.
    destruct (NodePath.split _ !! 0%nat) as [first|]; [|done].
    rewrite negb_true_iff, bool_decide_eq_false. split; congruence.
  - apply includesFile_directory_examples.
Qed.

Lemma deserializeOverride_construct ovr o :
  deserializeOverride ovr = Some o -> construct (variant o) ovr = Some o.
Proof.
  unfold deserializeOverride. intros H.
  destruct (Js.get ovr "type") as [| |n|type]; try done.
  repeat match type of H with
  | (if ?c then _ else _) = _ => destruct c
  end; try done;
  match type of H with
  | _ <$> ?x = Some _ => destruct x eqn:E; simplify_eq/=
  end;
  unfold PlatformOverride.fromSerialized, CopyOverride.fromSerialized,
    DerivedOverride.fromSerialized, PatchOverride.fromSerialized,
    DirectoryCopyOverride.fromSerialized in E; by rewrite E.
Qed.

Lemma BaseFileOverride_new_issue_zero args b :
  Js.get args "issue" = Js.number 0 ->
  BaseFileOverride.new args = Some b ->
  BaseFileOverride.issueNumber b = Js.null.
Proof.
  unfold BaseFileOverride.new. intros Hissue H. rewrite Hissue in H.
  by simplify_option_eq.
Qed.

(** C10. An issue of [0] is falsy: the constructor of a copy, derived or
    patch override stores [null] for it, whether called directly or
    through [deserializeOverride]; a derived override built that way
    serializes its [issue] as [undefined] and hands [undefined] to the
    factory in [createUpdated]. *)
Theorem issue_zero_stored_as_null :
  (forall v args o,
     v <> VPlatform -> v <> VDirectoryCopy ->
     Js.get args "issue" = Js.number 0 ->
     construct v args = Some o ->
     BaseFileOverride.issueNumber <$> fileLinked o = Some Js.null)
  /\ (forall ovr o,
        variant o <> VPlatform -> variant o <> VDirectoryCopy ->
        Js.get ovr "issue" = Js.number 0 ->
        deserializeOverride ovr = Some o ->
        BaseFileOverride.issueNumber <$> fileLinked o = Some Js.null)
  /\ (forall args o,
        Js.get args "issue" = Js.number 0 ->
        construct VDerived args = Some o ->
        Js.get (serialize o) "issue" = Js.undefined
        /\ exists b,
             o = Derived b
             /\ forall S (factory : OverrideFactory S),
                  createUpdated o factory
                  = createDerivedOverride factory
                      (BaseFileOverride.overrideFile b)
                      (BaseFileOverride.baseFile b) Js.undefined).
Proof.
  assert (Hconstruct : forall v args o,
    v <> VPlatform -> v <> VDirectoryCopy ->
    Js.get args "issue" = Js.number 0 ->
    construct v args = Some o ->
    BaseFileOverride.issueNumber <$> fileLinked o = Some Js.null).
  { intros v args o Hp Hd Hissue H.
    destruct v; try done; cbn [construct] in H;
      unfold CopyOverride.new, DerivedOverride.new, PatchOverride.new in H;
      destruct (BaseFileOverride.new args) as [b|] eqn:E; simplify_eq/=;
      by rewrite (BaseFileOverride_new_issue_zero args b). }
  split; [exact Hconstruct|]. split.
  - intros ovr o Hp Hd Hissue H.
    apply deserializeOverride_construct in H. by eapply Hconstruct.
  - intros args o Hissue H.
    cbn [construct] in H. unfold DerivedOverride.new in H.
    destruct (BaseFileOverride.new args) as [b|] eqn:E; simplify_eq/=.
    apply (BaseFileOverride_new_issue_zero args b Hissue) in E.
    split.
    + change (Js.get (DerivedOverride.serialize b) "issue")
        with (Js.or (BaseFileOverride.issueNumber b) Js.undefined).
      by rewrite E.
    + exists b. split; [done|]. intros S factory.
      unfold DerivedOverride.createUpdated. by rewrite E.
Qed.


(** *** The theorems at sample inputs *)

Lemma deserialize_serialize_roundtrip_witness :
  exists o',
    deserializeOverride (serialize Samples.derivedOverride) = Some o'
    /\ variant o' = variant Samples.derivedOverride
    /\ name o' = name Samples.derivedOverride
    /\ validationStrategies o' = validationStrategies Samples.derivedOverride
    /\ upgradeStrategy o' = upgradeStrategy Samples.derivedOverride.
Proof.
  exact (deserialize_serialize_roundtrip VDerived Samples.derivedArgs
           Samples.derivedOverride eq_refl).
Defined.

Lemma deserializeOverride_dispatch_witness :
  deserializeOverride Samples.directoryRecord
  = Some (DirectoryCopy Samples.directoryCopy).
Proof.
  exact (proj1 (proj2 (proj2 deserializeOverride_dispatch))
           Samples.directoryRecord "a/b" "upstream/a/b" "0.62.0" "sha1:tree"
           eq_refl eq_refl eq_refl eq_refl eq_refl eq_refl).
Defined.

Lemma includesFile_scope_witness :
  includesFile "/repo" (DirectoryCopy Samples.directoryCopy) "a/b/c.txt"
  = true
  /\ includesFile "/repo" (DirectoryCopy Samples.directoryCopy)
       "a/c/../b/c.txt" = true
  /\ includesFile "/repo" (DirectoryCopy Samples.directoryCopy)
       "a/other.txt" = false.
Proof.
  exact (proj2 (proj2 (includesFile_scope "/repo")) Samples.directoryCopy
           eq_refl).
Defined.

Lemma includesFile_own_name_witness :
  includesFile "/repo" (DirectoryCopy Samples.directoryCopy)
    (name (DirectoryCopy Samples.directoryCopy)) = true.
Proof.
  exact (proj1 (includesFile_own_name "/repo" VDirectoryCopy
                  Samples.directoryRecord
                  (DirectoryCopy Samples.directoryCopy) eq_refl)).
Defined.

Lemma issue_zero_stored_as_null_witness :
  Js.get (serialize Samples.derivedIssueZero) "issue" = Js.undefined.
Proof.
  exact (proj1 (proj2 (proj2 issue_zero_stored_as_null)
                  Samples.derivedIssueZeroArgs Samples.derivedIssueZero
                  eq_refl eq_refl)).
Defined.



End OverrideFacts.

(** ** Facts about [createUpdated] *)

Module CreateUpdatedFacts.
Import PathUtilsFacts OverrideFacts.











(** *** The theorems at sample inputs *)



End CreateUpdatedFacts.

(** ** Facts about serialized records *)

Module SerializationFacts.
Import PathUtilsFacts OverrideFacts.

(** X1. Deserializing the serialized form of an override gives back every stored
    field, the constructor of its class accepts the serialized record as its
    argument, and two overrides with the same serialized form are the same. *)
Theorem deserialize_serialize_identity v args o :
  construct v args = Some o ->
  deserializeOverride (serialize o) = Some o
  /\ construct (variant o) (serialize o) = Some o
  /\ forall v' args' o',
       construct v' args' = Some o' -> serialize o' = serialize o -> o' = o.
Proof.
  intros H. apply construct_invariant in H.
  assert (Hback : deserializeOverride (serialize o) = Some o)
    by (by apply roundtrip_exact).
  split; [done|]. split; [by apply deserializeOverride_construct|].
  intros v' args' o' H' Heq. apply construct_invariant, roundtrip_exact in H'.
  rewrite Heq, Hback in H'. by injection H'.
Qed.

Lemma deserialize_serialize_identity_witness :
  deserializeOverride (serialize Samples.copyOverride)
  = Some Samples.copyOverride.
Proof.
  exact (proj1 (deserialize_serialize_identity VCopy Samples.copyArgs
                  Samples.copyOverride eq_refl)).
Defined.

(** X2. On serialized overrides the tag together with the presence of a
    [directory] field tells the class apart. *)
Theorem serialize_discriminates o1 o2 :
  Js.get (serialize o1) "type" = Js.get (serialize o2) "type" ->
  Js.has "directory" (serialize o1) = Js.has "directory" (serialize o2) ->
  variant o1 = variant o2.
Proof.
  destruct o1, o2; cbn [serialize variant]; intros Htype Hdir;
    first [ reflexivity | discriminate Htype | discriminate Hdir ].
Qed.

Lemma serialize_discriminates_witness :
  variant Samples.copyOverride = variant Samples.repinnedCopy.
Proof.
  exact (serialize_discriminates Samples.copyOverride Samples.repinnedCopy
           eq_refl eq_refl).
Defined.

Lemma get_insert_ne (ovr : JsObject) k k' v :
  k <> k' -> Js.get (<[k := v]> ovr) k' = Js.get ovr k'.
Proof. intros H. unfold Js.get. by rewrite lookup_insert_ne. Qed.

Lemma has_insert_ne (ovr : JsObject) k k' v :
  k <> k' -> Js.has k' (<[k := v]> ovr) = Js.has k' ovr.
Proof. intros H. unfold Js.has. by rewrite lookup_insert_ne. Qed.

(** X3. A field that is none of those the classes read does not change what a
    record deserializes to: it is dropped without notice. *)
Theorem deserializeOverride_ignores_other_fields (ovr : JsObject) k v :
  k ∉ serializedFields ->
  deserializeOverride (<[k := v]> ovr) = deserializeOverride ovr.
Proof.
  intros Hk. unfold serializedFields in Hk.
  repeat (apply not_elem_of_cons in Hk as [? Hk]).
  unfold deserializeOverride, PlatformOverride.fromSerialized,
    CopyOverride.fromSerialized, DerivedOverride.fromSerialized,
    PatchOverride.fromSerialized, DirectoryCopyOverride.fromSerialized,
    CopyOverride.new, DerivedOverride.new, PatchOverride.new,
    PlatformOverride.new, BaseFileOverride.new, DirectoryCopyOverride.new.
  rewrite !get_insert_ne, !has_insert_ne by done. done.
Qed.

Lemma deserializeOverride_ignores_other_fields_witness :
  deserializeOverride (<["comment" := Js.str "x"]> Samples.directoryRecord)
  = deserializeOverride Samples.directoryRecord.
Proof.
  apply (deserializeOverride_ignores_other_fields Samples.directoryRecord
           "comment" (Js.str "x")).
  unfold serializedFields.
  repeat (apply not_elem_of_cons; split; [discriminate|]).
  apply not_elem_of_nil.
Defined.

(** X4. Under the shared tag [copy], a record with a [directory] field is read
    as a directory copy whatever its [file] and [baseFile] fields hold. *)
Theorem directory_record_ignores_file_fields (ovr : JsObject) k v :
  Js.get ovr "type" = Js.str "copy" ->
  Js.has "directory" ovr = true ->
  k = "file" \/ k = "baseFile" ->
  deserializeOverride (<[k := v]> ovr) = deserializeOverride ovr.
Proof.
  intros Htype Hdir Hk.
  assert (Hne : forall k', k' <> "file" -> k' <> "baseFile" -> k <> k')
    by (intros k' ? ? <-; by destruct Hk).
  unfold deserializeOverride.
  rewrite get_insert_ne, has_insert_ne, Htype, Hdir by (by apply Hne).
  rewrite bool_decide_eq_false_2, bool_decide_eq_true_2 by done.
  unfold DirectoryCopyOverride.fromSerialized, DirectoryCopyOverride.new.
  rewrite !get_insert_ne by (by apply Hne). done.
Qed.

Lemma directory_record_ignores_file_fields_witness :
  deserializeOverride
    (<["file" := Js.str "a/b/c.txt"]> Samples.directoryRecord)
  = deserializeOverride Samples.directoryRecord.
Proof.
  exact (directory_record_ignores_file_fields Samples.directoryRecord "file"
           (Js.str "a/b/c.txt") eq_refl eq_refl (or_introl eq_refl)).
Defined.

End SerializationFacts.

(** ** Facts about inclusion and issues *)

Module InclusionFacts.
Import PathUtilsFacts OverrideFacts.

(** X5. [includesFile] sees only the normalized form of the path it is asked
    about: a path and its normalized form get the same answer. *)
Theorem includesFile_normalizes_query cwd o p :
  includesFile cwd o (normalizePath p) = includesFile cwd o p.
Proof.
  destruct o; cbn [includesFile];
    unfold PlatformOverride.includesFile, BaseFileOverride.includesFile,
      DirectoryCopyOverride.includesFile;
    by rewrite normalizePath_idem.
Qed.

(** X6. Every spelling of the path an override is named after is included, and
    so is the path that [serialize] writes for it. *)
Theorem includesFile_any_spelling cwd v args o :
  construct v args = Some o ->
  (forall p, normalizePath p = name o -> includesFile cwd o p = true)
  /\ includesFile cwd o (unixPath (name o)) = true.
Proof.
  intros H. apply construct_invariant in H.
  assert (Hall : forall p, normalizePath p = name o ->
                           includesFile cwd o p = true).
  { intros p Hp. destruct o as [x|b|b|b|d]; cbn [includesFile name] in *;
      try (by apply bool_decide_eq_true_2).
    unfold DirectoryCopyOverride.includesFile. rewrite Hp.
    unfold DirectoryCopyOverride.name.
    by rewrite RelativeFacts.relative_same. }
  split; [exact Hall|]. apply Hall.
  apply normalized_unixPath.
  destruct o as [x|b|b|b|d]; cbn [invariant name] in *; tauto.
Qed.

Lemma includesFile_any_spelling_witness :
  includesFile "/repo" Samples.copyOverride
    "src\Libraries\.\Text.windows.js" = true.
Proof.
  exact (proj1 (includesFile_any_spelling "/repo" VCopy Samples.copyArgs
                  Samples.copyOverride eq_refl)
           "src\Libraries\.\Text.windows.js" eq_refl).
Defined.

Lemma includesFile_directory_prefix_witness :
  includesFile "/repo" (DirectoryCopy Samples.directoryCopy) "a/b/c/d.txt"
  = true
  <-> [ "repo"; "a"; "b" ] `prefix_of` [ "repo"; "a"; "b"; "c"; "d.txt" ].
Proof.
  exact (includesFile_directory_prefix "/repo" Samples.directoryCopy
           "a/b/c/d.txt" eq_refl).
Defined.

(** X8. An override built without an issue: the patch class serializes
    [issue: null], which the declared argument type of its own constructor
    does not admit, while the derived class serializes [issue: undefined],
    which it admits. *)
Theorem serialize_without_issue args :
  BaseFileOverride.argsType args = true ->
  Js.get args "issue" = Js.undefined ->
  exists b,
    BaseFileOverride.new args = Some b
    /\ Js.get (PatchOverride.serialize b) "issue" = Js.null
    /\ PatchOverride.argsType (PatchOverride.serialize b) = false
    /\ deserializeOverride (PatchOverride.serialize b) = Some (Patch b)
    /\ Js.get (DerivedOverride.serialize b) "issue" = Js.undefined
    /\ DerivedOverride.argsType (DerivedOverride.serialize b) = true
    /\ deserializeOverride (DerivedOverride.serialize b) = Some (Derived b).
Proof.
  intros Htype Hissue. unfold BaseFileOverride.argsType in Htype.
  repeat (apply andb_prop in Htype as [Htype ?]).
  unfold BaseFileOverride.new. rewrite Hissue.
  destruct (Js.get args "file") as [| | |f]; try done.
  destruct (Js.get args "baseFile") as [| | |bf]; try done.
  destruct (Js.get args "baseVersion") as [| | |bv]; try done.
  destruct (Js.get args "baseHash") as [| | |bh]; try done.
  cbn [Js.asString mbind option_bind]. eexists. split; [reflexivity|].
  assert (Hinv : forall wrap, (wrap = Patch \/ wrap = Derived) ->
            invariant (wrap
              {| BaseFileOverride.overrideFile := normalizePath f;
                 BaseFileOverride.baseFile := normalizePath bf;
                 BaseFileOverride.baseVersion := bv;
                 BaseFileOverride.baseHash := bh;
                 BaseFileOverride.issueNumber := Js.or Js.undefined Js.null |})).
  { intros wrap [-> | ->]; cbn; repeat split; apply normalizePath_idem. }
  repeat split.
  - apply (roundtrip_exact (Patch _)), Hinv. by left.
  - apply (roundtrip_exact (Derived _)), Hinv. by right.
Qed.

Lemma serialize_without_issue_witness :
  exists b,
    BaseFileOverride.new Samples.copyWithoutIssueArgs = Some b
    /\ Js.get (PatchOverride.serialize b) "issue" = Js.null
    /\ PatchOverride.argsType (PatchOverride.serialize b) = false
    /\ deserializeOverride (PatchOverride.serialize b) = Some (Patch b)
    /\ Js.get (DerivedOverride.serialize b) "issue" = Js.undefined
    /\ DerivedOverride.argsType (DerivedOverride.serialize b) = true
    /\ deserializeOverride (DerivedOverride.serialize b) = Some (Derived b).
Proof.
  exact (serialize_without_issue Samples.copyWithoutIssueArgs eq_refl eq_refl).
Defined.

End InclusionFacts.

(** ** Sample computations *)

Example normalize_ex1 : NodePath.normalize "a/c/../b/c.txt" = "a/b/c.txt".
Proof. reflexivity. Qed.
Example normalize_ex2 : NodePath.normalize "/a//b/./c/" = "/a/b/c/".
Proof. reflexivity. Qed.
Example normalize_ex3 : NodePath.normalize "../../a/.." = "../..".
Proof. reflexivity. Qed.
Example normalize_ex4 : NodePath.normalize "/../a" = "/a".
Proof. reflexivity. Qed.
Example normalize_ex5 : NodePath.normalize "a/.." = ".".
Proof. reflexivity. Qed.
Example normalize_ex6 : NodePath.normalize "a/../" = "./".
Proof. reflexivity. Qed.
Example relative_ex1 : NodePath.relative "/repo" "a/b" "a/b/c.txt" = "c.txt".
Proof. reflexivity. Qed.
Example relative_ex2 : NodePath.relative "/repo" "a/b" "a/other.txt" = "../other.txt".
Proof. reflexivity. Qed.
Example relative_ex3 : NodePath.relative "/repo" "a/b" "a" = "..".
Proof. reflexivity. Qed.
Example relative_ex4 : NodePath.relative "/repo" "/" "/foo" = "foo".
Proof. reflexivity. Qed.
Example unixPath_ex1 : PathUtils.unixPath "a\b\c.txt" = "a/b/c.txt".
Proof. reflexivity. Qed.

Example construct_platform_ex :
  construct VPlatform Samples.platformArgs
  = Some (Platform
            {| PlatformOverride.overrideFile :=
                 "src/Libraries/Alert.windows.js" |}).
Proof. reflexivity. Qed.

Example construct_copy_ex :
  construct VCopy Samples.copyArgs = Some Samples.copyOverride.
Proof. reflexivity. Qed.

Example construct_copy_without_issue_ex :
  BaseFileOverride.issueNumber
  <$> (construct VCopy Samples.copyWithoutIssueArgs ≫= fileLinked)
  = Some Js.null.
Proof. reflexivity. Qed.

Example deserialize_directory_ex :
  deserializeOverride Samples.directoryRecord
  = Some (DirectoryCopy Samples.directoryCopy).
Proof. reflexivity. Qed.

Example stale_copy_before_ex :
  map (passes Samples.hashContent Samples.staleTrees)
    (validationStrategies Samples.copyOverride)
  = [ true; true; false; false ].
Proof. reflexivity. Qed.

Example stale_copy_after_ex :
  callCreateUpdated 0%nat (runFactory (snapshotFactory Samples.hashContent))
    (Samples.staleTrees, [ Samples.copyOverride ])
  = (Resolved 1%nat,
     (Samples.recopiedTrees, [ Samples.copyOverride; Samples.repinnedCopy ]))
  /\ map (passes Samples.hashContent Samples.recopiedTrees)
       (validationStrategies Samples.repinnedCopy)
     = [ true; true; true; true ].
Proof. split; reflexivity. Qed.
